(** * vaia-bot: field-completion reconciliation engine

    A shallow embedding of the hotel market-data fetcher:

    - [middleware/constants.js]: the field registry ([MD_PR_FIELDS],
      [MD_CAT_FIELDS], [MD_ALL_FIELDS], [BOOLEAN_FIELDS]);
    - [services/marketDataService.js]: [MarketDataService] (emptiness
      check, safe merge, schema filter, lookups, insert, update, upsert);
    - [services/aiService.js]: [AIService];
    - [config/database.js]: [executeQuery];
    - [index.js]: [processHotelWithRetry], [fetchAndPrintHotelFAQ] and the
      loop of [main] over the hotels.

    Left out: [services/hotelService.js] and the rest of [main] and of
    [config/database.js] (connection test, hotel list, pool shutdown),
    whose calls to the outside world are not among the calls modelled.

    JavaScript objects are finite maps from property names to values
    ([gmap string value]): the own, enumerable, string-keyed data
    properties of the object, with [Object.prototype] behind them for
    reads of other keys; assigning to a key creates or overwrites that own
    property (assignment to [__proto__] is outside the model).
    Asynchronous, fallible code lives in a small monad [M] that threads
    the history of calls made to the outside world (database pool,
    completion service, timers) and carries thrown errors.  [parseInt],
    a built-in of the runtime, is a parameter.  [console.log] output is
    not modelled. *)

From Stdlib Require Import ZArith Ascii String List Bool Lia.
From stdpp Require Import base option list gmap strings fin_maps.

Local Open Scope string_scope.
Local Open Scope Z_scope.
Local Open Scope list_scope.

(** ** JavaScript values *)

Module Js.

(** The values that flow through the engine.  Numbers that occur here
    (row ids, JSON integers) are integers.  Arrays and nested objects
    coming from the completion service are compared by reference, so they
    are represented by the reference alone. *)
Inductive value : Type :=
  | VUndefined
  | VNull
  | VBool (b : bool)
  | VNum (z : Z)
  | VStr (s : string)
  | VRef (address : nat).

(** [a === b] *)
Definition strictEq (a b : value) : bool :=
  match a, b with
  | VUndefined, VUndefined => true
  | VNull, VNull => true
  | VBool x, VBool y => Bool.eqb x y
  | VNum x, VNum y => Z.eqb x y
  | VStr x, VStr y => String.eqb x y
  | VRef x, VRef y => Nat.eqb x y
  | _, _ => false
  end.

(** [a ?? b] *)
Definition nullish (a b : value) : value :=
  match a with
  | VUndefined | VNull => b
  | _ => a
  end.

(** An object: its own enumerable properties. *)
Abbreviation object := (gmap string value).

(** The own value of [key] in [o], [undefined] when [o] has no such own
    property: what [o[key]] gives for a key taken from [Object.keys(o)],
    and for any key that [Object.prototype] does not define. *)
Definition get (o : object) (key : string) : value :=
  default VUndefined (o !! key).

(** The properties every object inherits from [Object.prototype]: methods
    (function objects), and the accessor [__proto__], which yields the
    prototype object. *)
Definition objectPrototype : list string := [
  "constructor"; "__defineGetter__"; "__defineSetter__"; "hasOwnProperty";
  "__lookupGetter__"; "__lookupSetter__"; "isPrototypeOf";
  "propertyIsEnumerable"; "toString"; "valueOf"; "__proto__"; "toLocaleString"
].

(** The index of [key] in a list of names. *)
Fixpoint position (key : string) (names : list string) : option nat :=
  match names with
  | [] => None
  | n :: rest => if String.eqb key n then Some O else S <$> position key rest
  end.

(** What an object inherits for [key]: a reference to the function (or,
    for [__proto__], to the prototype), if [Object.prototype] has [key]. *)
Definition inherited (key : string) : option value :=
  VRef <$> position key objectPrototype.

(** [o[key]] for any key: the own property if there is one, else the
    inherited one, else [undefined]. *)
Definition read (o : object) (key : string) : value :=
  match o !! key with
  | Some v => v
  | None => default VUndefined (inherited key)
  end.

(** [key in o]: own or inherited. *)
Definition has (o : object) (key : string) : bool :=
  bool_decide (is_Some (o !! key)) || bool_decide (is_Some (inherited key)).

(** [Object.keys(o)]: each own key once.  The order is the map's, which
    stands for the insertion order of the object; the same list gives a
    statement its columns and its parameters. *)
Definition keys (o : object) : list string := (map_to_list o).*1.

(** [o[key] = v] *)
Definition set (o : object) (key : string) (v : value) : object :=
  <[key := v]> o.

(** [s.toLowerCase()] on the ASCII letters. *)
Definition lowerAscii (c : ascii) : ascii :=
  let n := nat_of_ascii c in
  if ((65 <=? n) && (n <=? 90))%nat then ascii_of_nat (n + 32) else c.

Fixpoint toLowerCase (s : string) : string :=
  match s with
  | EmptyString => EmptyString
  | String c rest => String (lowerAscii c) (toLowerCase rest)
  end.

(** [s.replaceAll(' ', '')] *)
Fixpoint removeSpaces (s : string) : string :=
  match s with
  | EmptyString => EmptyString
  | String c rest =>
      if Ascii.eqb c " "%char then removeSpaces rest
      else String c (removeSpaces rest)
  end.

End Js.

Import Js.

(** ** middleware/constants.js *)

Record FieldDescriptor := {
  name : string;
  capture_description : string
}.

(** The double-quote character, for the one description that has it. *)
Definition dquote : string := String (ascii_of_nat 34) EmptyString.

Definition MD_PR_FIELDS : list FieldDescriptor := [
  {| name := "name"; capture_description := "hotel name" |};
  {| name := "city_state_country"; capture_description := "city, state, country" |};
  {| name := "address"; capture_description := "street address" |};
  {| name := "zipcode"; capture_description := "zipcode or postal code" |};
  {| name := "description"; capture_description := "hotel description" |};
  {| name := "email"; capture_description := "contact email" |};
  {| name := "main_phone"; capture_description := "main phone number" |};
  {| name := "other_phones";
     capture_description :=
       ("All phone numbers with descriptions. e.g: " ++ dquote
        ++ "Front Desk: (123) 456-7890" ++ dquote)%string |}
].

Definition MD_CAT_FIELDS : list FieldDescriptor := [
  {| name := "hotel_information";
     capture_description :=
       "Hotel Information - List high level information about the property" |};
  {| name := "accessibility";
     capture_description :=
       "Accessibility - ADA-compliant rooms, Accessible entrances, restrooms, and elevators, Assistive devices or services" |};
  {| name := "amenities";
     capture_description :=
       "Amenities - Feature, facility, or service offered to enhance the guest experience" |};
  {| name := "cleanliness_enhancements";
     capture_description :=
       "Cleanliness enhancements - Specific improvements or additional measures to maintain a higher level of hygiene and sanitation" |};
  {| name := "food_beverage";
     capture_description :=
       "Food & beverage - Dining, bar, café, and catering services provided" |};
  {| name := "guest_rooms"; capture_description := "Guest Rooms - Guest rooms types" |};
  {| name := "guest_services_front_desk";
     capture_description :=
       "Guest Services / Front Desk - Bell/porter service, Concierge, Lost & found inquiries, Luggage storage, Wake-up calls" |};
  {| name := "housekeeping_laundry";
     capture_description :=
       "Housekeeping / Laundry - Cleaning, room upkeep, linens, guest laundry, guest clothing care" |};
  {| name := "local_area_information";
     capture_description :=
       "Local Area Information - Attractions, services, and amenities outside the hotel" |};
  {| name := "meeting_events";
     capture_description :=
       "Meeting & events - Spaces, services, and resources for hosting meetings, conferences, banquets, weddings, and social gatherings" |};
  {| name := "on_property_convenience";
     capture_description :=
       "On property convenience - Practical, guest-facing services that make the stay more seamless, accessible, and comfortable" |};
  {| name := "parking_transportation";
     capture_description :=
       "Parking & transportation - Services, instructions, and logistics related to guest vehicles, access to the property, and travel options to and from the hotel" |};
  {| name := "policies";
     capture_description := "Policies - Formal set of guidelines, rules, or procedures" |};
  {| name := "recreation_fitness";
     capture_description :=
       "Recreation & fitness - Facilities, activities, and services that support leisure, wellness, and physical activity" |};
  {| name := "safety_security";
     capture_description :=
       "Safety & Security - Emergency procedures (fire exits, severe weather protocols, Safe deposit boxes or in-room safes, Security staff or surveillance)" |};
  {| name := "technology_business_services";
     capture_description :=
       "Technology / Business Services - Business center computers, printing, fax, and copying, Wi-Fi details, Public computer access" |}
].

Definition MD_ALL_FIELDS : list FieldDescriptor := MD_PR_FIELDS ++ MD_CAT_FIELDS.

Definition BOOLEAN_FIELDS : list string := [].

(** ** services/marketDataService.js: the pure part *)

Module MarketDataService.

Definition booleanKeysList : list string := BOOLEAN_FIELDS.

(** The string branch of [convertBooleanValues]. *)
Definition convertBooleanString (s : string) : value :=
  let flatValue := removeSpaces (toLowerCase s) in
  if ((flatValue =? "true") || (flatValue =? "yes") || (flatValue =? "ok")
      || (flatValue =? "y") || (flatValue =? "1"))%string then VNum 1
  else if ((flatValue =? "false") || (flatValue =? "no")
           || (flatValue =? "n") || (flatValue =? "0"))%string then VNum 0
  else if ((flatValue =? "") || (flatValue =? "n/a"))%string then VNull
  else VNull.

Definition convertBooleanValue (v : value) : value :=
  match v with
  | VBool b => if b then VNum 1 else VNum 0
  | VNum z => if z =? 0 then VNum 0 else if z =? 1 then VNum 1 else VNull
  | VStr s => convertBooleanString s
  | VUndefined | VNull => VNull
  | VRef _ => VNull
  end.

(** [convertBooleanValues(data)]: the loop runs over [booleanKeysList] and
    skips the keys that [data] does not have. *)
Definition convertBooleanValues (data : object) : object :=
  foldl (fun convertedData key =>
           if negb (has data key) then convertedData
           else set convertedData key (convertBooleanValue (read convertedData key)))
        data booleanKeysList.

(** The test both [getEmptyFields] and [mergeDataSafely] apply to a value:
    [value === null || value === undefined || value === '' || value === 'N/A']. *)
Definition isEmpty (v : value) : bool :=
  strictEq v VNull || strictEq v VUndefined
  || strictEq v (VStr "") || strictEq v (VStr "N/A").

(** [getEmptyFields(existingData, allFields)]; [None] is a [null] or
    [undefined] first argument. *)
Definition getEmptyFields (existingData : option object) (allFields : list string)
  : list string :=
  match existingData with
  | None => allFields
  | Some existingData =>
      List.filter (fun fieldName => isEmpty (read existingData fieldName)) allFields
  end.

(** [mergeDataSafely(existingData, newData)] *)
Definition mergeDataSafely (existingData newData : object) : object :=
  foldl (fun merged key =>
           let newValue := get newData key in
           if negb (strictEq newValue VNull) && negb (strictEq newValue VUndefined)
              && negb (strictEq newValue (VStr "")) && negb (strictEq newValue (VStr "N/A"))
           then set merged key newValue
           else merged)
        existingData (keys newData).

(** [filterValidFields(data)] *)
Definition filterValidFields (data : object) : object :=
  let validFieldNames : gset string := list_to_set (List.map name MD_ALL_FIELDS) in
  foldl (fun filteredData key =>
           if bool_decide (key ∈ validFieldNames) || (key =? "hotel_uuid")%string
           then set filteredData key (get data key)
           else filteredData)
        ∅ (keys data).

End MarketDataService.

Import MarketDataService.

(** ** Effects: calls to the outside world *)

Module Db.

(** A row of [SELECT id ...]. *)
Record IdRow := { id : Z }.

(** What the driver returns for [INSERT] and [UPDATE]. *)
Record ResultSetHeader := { insertId : Z; affectedRows : Z }.

Inductive assignment :=
  | SetParam (column : string)             (* [column = ?] *)
  | SetCurrentTimestamp (column : string). (* [column = CURRENT_TIMESTAMP] *)

(** The four statements the service sends, with their bound parameters;
    the index is the shape of the rows that come back. *)
Inductive query : Type -> Type :=
  (* SELECT id FROM market_data WHERE hotel_uuid = ? AND is_deleted = 0 *)
  | SelectId (params : list value) : query (list IdRow)
  (* SELECT * FROM market_data WHERE hotel_uuid = ? AND is_deleted = 0 *)
  | SelectAll (params : list value) : query (list object)
  (* INSERT INTO market_data (columns) VALUES (?, ..., ?) *)
  | InsertInto (columns : list string) (params : list value) : query ResultSetHeader
  (* UPDATE market_data SET assignments WHERE id = ? *)
  | UpdateWhereId (assignments : list assignment) (params : list value)
      : query ResultSetHeader.

End Db.

Record Error := { message : string }.

Inductive outcome (A : Type) : Type :=
  | Returned (a : A)
  | Threw (e : Error).
Arguments Returned {A} a.
Arguments Threw {A} e.

Inductive call : Type -> Type :=
  (* pool.execute(query, params) *)
  | PoolExecute {R} (q : Db.query R) : call R
  (* the streamed chat completion for the hotel-data prompt, collected and
     passed through extractJson *)
  | DataCompletion (hotelName : string) (fields : list FieldDescriptor)
      (fieldsNote : bool) : call (list object)
  (* the same for the FAQ prompt *)
  | FaqCompletion (hotelName : string) : call (list object).

Inductive event : Type :=
  | Called {R} (c : call R)
  | Waited (ms : Z). (* await new Promise(resolve => setTimeout(resolve, ms)) *)

(** The outside world answers a call knowing everything that happened
    before it (oldest event first): it may return or throw. *)
Definition world := forall R, list event -> call R -> outcome R.

(** A computation reads the world and the history so far, and yields its
    outcome together with the events it added. *)
Definition M (A : Type) : Type := world -> list event -> outcome A * list event.

Definition ret {A} (a : A) : M A := fun _ _ => (Returned a, []).

Definition throw {A} (e : Error) : M A := fun _ _ => (Threw e, []).

Definition bind {A B} (m : M A) (f : A -> M B) : M B :=
  fun w h =>
    match m w h with
    | (Returned a, e1) =>
        match f a w (h ++ e1) with
        | (o, e2) => (o, e1 ++ e2)
        end
    | (Threw e, e1) => (Threw e, e1)
    end.

(** [try { body } catch (error) { handler }] *)
Definition tryCatch {A} (body : M A) (handler : Error -> M A) : M A :=
  fun w h =>
    match body w h with
    | (Returned a, e1) => (Returned a, e1)
    | (Threw e, e1) =>
        match handler e w (h ++ e1) with
        | (o, e2) => (o, e1 ++ e2)
        end
    end.

Definition perform {R} (c : call R) : M R :=
  fun w h => (w R h c, [Called c]).

Definition sleep (ms : Z) : M unit :=
  fun _ _ => (Returned tt, [Waited ms]).

Declare Scope js_scope.
Notation "'let*' x ':=' m 'in' k" := (bind m (fun x => k))
  (at level 10, x pattern, m at level 100, k at level 200) : js_scope.
Local Open Scope js_scope.

(** ** config/database.js *)

Definition executeQuery {R} (q : Db.query R) : M R :=
  tryCatch (perform (PoolExecute q)) (fun error => throw error).

(** ** services/marketDataService.js: the database part *)

Module MarketDataStore.

Definition getIdByUuid (hotelUuid : value) : M Z :=
  tryCatch
    (let* rows := executeQuery (Db.SelectId [hotelUuid]) in
     ret (match rows with
          | result :: _ => Db.id result
          | [] => 0
          end))
    (fun error => ret 0).

(** The first row, or [None] for [undefined] (no row) and [null] (the
    query failed). *)
Definition getMarketDataByUuid (hotelUuid : value) : M (option object) :=
  tryCatch
    (let* rows := executeQuery (Db.SelectAll [hotelUuid]) in
     ret (head rows))
    (fun error => ret None).

Definition insertMarketData (data : object) : M Z :=
  let filteredData := filterValidFields data in
  let fineData := convertBooleanValues filteredData in
  let columns := keys fineData in
  if (length columns =? 0)%nat
  then throw {| message := "No valid fields provided for insertion" |}
  else
    let values := List.map (fun col => nullish (get fineData col) VNull) columns in
    tryCatch
      (let* result := executeQuery (Db.InsertInto columns values) in
       ret (Db.insertId result))
      (fun error => throw error).

Definition updateMarketData (id : Z) (data : object) : M Z :=
  let dataWithoutUuid := delete "hotel_uuid" data in
  let filteredData := filterValidFields dataWithoutUuid in
  let fineData := convertBooleanValues filteredData in
  let columns := keys fineData in
  if (length columns =? 0)%nat
  then ret 0
  else
    let setClause := List.map Db.SetParam columns in
    let values :=
      List.map (fun col => nullish (get fineData col) VNull) columns ++ [VNum id] in
    tryCatch
      (let* result :=
         executeQuery
           (Db.UpdateWhereId
              (setClause ++ [Db.SetCurrentTimestamp "updated_at"]) values) in
       ret (Db.affectedRows result))
      (fun error => throw error).

End MarketDataStore.

Import MarketDataStore.

(** ** services/aiService.js *)

Module AIService.

(** [fieldsToFetch ? MD_ALL_FIELDS.filter(f => fieldsToFetch.includes(f.name))
    : MD_ALL_FIELDS]; [fieldsToFetch] is an array of names or [null]. *)
Definition fieldsFor (fieldsToFetch : option (list string)) : list FieldDescriptor :=
  match fieldsToFetch with
  | Some names => List.filter (fun f => bool_decide (name f ∈ names)) MD_ALL_FIELDS
  | None => MD_ALL_FIELDS
  end.

Definition fetchHotelData (hotelName : string) (fieldsToFetch : option (list string))
  : M object :=
  let fields := fieldsFor fieldsToFetch in
  if (length fields =? 0)%nat
  then throw {| message := "No fields to fetch" |}
  else
    tryCatch
      (let* extractedJsonObjects :=
         perform (DataCompletion hotelName fields
                    (bool_decide (is_Some fieldsToFetch))) in
       match extractedJsonObjects with
       | [] => throw {| message := "No JSON found in response" |}
       | parsedJson :: _ => ret parsedJson
       end)
      (fun error => throw error).

(** The FAQ array, or a thrown error. *)
Definition fetchHotelFAQ (hotelName : string) : M (list object) :=
  tryCatch (perform (FaqCompletion hotelName)) (fun error => throw error).

End AIService.

(** ** index.js *)

Module Hotel.
(** A row of [hotel_list]. *)
Record t := { id : Z; hotel_uuid : string; name : string }.
End Hotel.

(** The result of [parseInt] and of [Math.max]: [NaN] or an integer
    ([Infinity] is not among the values here).  The attempt counter is an
    integer too and is counted exactly. *)
Inductive number := NaN | Num (z : Z).

(** A runtime for the examples: they leave [SCRAPE_MAX_TRY] unset, so the
    one text their [parseInt] is given is the default "2". *)
Definition parseIntOfTheExamples (text : string) : number :=
  if String.eqb text "2" then Num 2 else NaN.

Section Runtime.

(** [parseInt(text, 10)] belongs to the JavaScript runtime, not to this
    repository: it is a parameter, and what follows holds whatever number
    it reads from a text. *)
Variable parseInt : string → number.

(** [Math.max(a, b)] with a number [b] *)
Definition Math_max (a : number) (b : Z) : number :=
  match a with
  | NaN => NaN
  | Num z => Num (Z.max z b)
  end.

(** [a < b] and [a >= b] with a number [a] *)
Definition lt (a : Z) (b : number) : bool :=
  match b with
  | NaN => false
  | Num z => a <? z
  end.

Definition ge (a : Z) (b : number) : bool :=
  match b with
  | NaN => false
  | Num z => a >=? z
  end.

(** [Math.max(parseInt(process.env.SCRAPE_MAX_TRY || '2', 10), 1)] *)
Definition maxAttemptsOf (SCRAPE_MAX_TRY : option string) : number :=
  let raw :=
    match SCRAPE_MAX_TRY with
    | None | Some EmptyString => "2"
    | Some s => s
    end in
  Math_max (parseInt raw) 1.

Definition allFieldNames : list string := List.map name MD_ALL_FIELDS.

Inductive control := Break | Continue.

(** One pass through the body of the [while] loop, after [attempt++]:
    the accumulator it leaves and how the pass ends.  Inside the [try]
    only the fetch can throw, and it does so before [accumulatedData] is
    assigned. *)
Definition attemptBody (hotel : Hotel.t) (maxAttempts : number)
    (attempt : Z) (accumulatedData : object) : M (control * object) :=
  let emptyFields := getEmptyFields (Some accumulatedData) allFieldNames in
  if (length emptyFields =? 0)%nat then ret (Break, accumulatedData)
  else
    tryCatch
      (let* newData := AIService.fetchHotelData (Hotel.name hotel) (Some emptyFields) in
       let accumulatedData := mergeDataSafely accumulatedData newData in
       let remainingEmptyFields :=
         getEmptyFields (Some accumulatedData) allFieldNames in
       if (length remainingEmptyFields =? 0)%nat then ret (Break, accumulatedData)
       else
         let* _ :=
           (if lt attempt maxAttempts && (0 <? length remainingEmptyFields)%nat
            then sleep 5000 else ret tt) in
         ret (Continue, accumulatedData))
      (fun error =>
         if ge attempt maxAttempts then ret (Break, accumulatedData)
         else
           let* _ := sleep 5000 in
           ret (Continue, accumulatedData)).

(** [while (attempt < maxAttempts) { attempt++; ... }]: the final
    accumulator and attempt counter.  [fuel] bounds the number of passes. *)
Fixpoint attemptLoop (fuel : nat) (hotel : Hotel.t) (maxAttempts : number)
    (attempt : Z) (accumulatedData : object) : M (object * Z) :=
  match fuel with
  | O => ret (accumulatedData, attempt)
  | S fuel =>
      if lt attempt maxAttempts then
        let attempt := attempt + 1 in
        let* (ctl, accumulatedData) :=
          attemptBody hotel maxAttempts attempt accumulatedData in
        match ctl with
        | Break => ret (accumulatedData, attempt)
        | Continue => attemptLoop fuel hotel maxAttempts attempt accumulatedData
        end
      else ret (accumulatedData, attempt)
  end.

(** The passes the loop can make from [attempt]. *)
Definition passes (maxAttempts : number) (attempt : Z) : nat :=
  match maxAttempts with
  | NaN => 0%nat
  | Num n => Z.to_nat (n - attempt)
  end.

(** "Update database outside of retry loop" *)
Definition saveToDatabase (hotel : Hotel.t) (existingData : option object)
    (accumulatedData : object) : M unit :=
  tryCatch
    (match existingData with
     | Some _ =>
         let* existingId := getIdByUuid (VStr (Hotel.hotel_uuid hotel)) in
         if existingId >? 0 then
           let* _ := updateMarketData existingId accumulatedData in
           ret tt
         else ret tt
     | None =>
         let dataWithUuid :=
           set accumulatedData "hotel_uuid" (VStr (Hotel.hotel_uuid hotel)) in
         let* insertId := insertMarketData dataWithUuid in
         ret tt
     end)
    (fun error => throw error).

Definition fetchAndPrintHotelFAQ (hotelName : string) : M unit :=
  tryCatch
    (let* faqs := AIService.fetchHotelFAQ hotelName in ret tt)
    (fun error => ret tt).

(** Everything after the loop: the same code whichever way the loop ended. *)
Definition afterLoop (hotel : Hotel.t) (existingData : option object)
    (accumulatedData : object) : M unit :=
  let* _ := saveToDatabase hotel existingData accumulatedData in
  fetchAndPrintHotelFAQ (Hotel.name hotel).

(** The loop from a given state, then the code after it. *)
Definition retryThenSave (fuel : nat) (hotel : Hotel.t) (maxAttempts : number)
    (existingData : option object) (attempt : Z) (accumulatedData : object)
  : M unit :=
  let* (accumulatedData, attempt) :=
    attemptLoop fuel hotel maxAttempts attempt accumulatedData in
  afterLoop hotel existingData accumulatedData.

Definition processHotelWithRetry (SCRAPE_MAX_TRY : option string) (hotel : Hotel.t)
  : M unit :=
  let maxAttempts := maxAttemptsOf SCRAPE_MAX_TRY in
  let* existingData := getMarketDataByUuid (VStr (Hotel.hotel_uuid hotel)) in
  let accumulatedData : object := ∅ in
  let attempt := 0 in
  retryThenSave (passes maxAttempts attempt) hotel maxAttempts existingData
    attempt accumulatedData.

(** Running a computation from the start of a process. *)
Definition run {A} (w : world) (m : M A) : outcome A * list event := m w [].

(** ** services/marketDataService.js: the rest *)

(** [convertBooleanValues] reads the static field [booleanKeysList] when it
    is called; this is its loop for any content of that field. *)
Definition convertBooleanValuesFor (booleanKeys : list string) (data : object)
  : object :=
  foldl (fun convertedData key =>
           if negb (has data key) then convertedData
           else set convertedData key (convertBooleanValue (read convertedData key)))
        data booleanKeys.

(** [{ action: 'update', affectedRows, id }] or [{ action: 'insert', insertId }] *)
Inductive UpsertResult :=
  | ActionUpdate (affectedRows : Z) (id : Z)
  | ActionInsert (insertId : Z).

Definition upsertMarketData (data : object) (hotelUuid : value) : M UpsertResult :=
  tryCatch
    (let* existingId := getIdByUuid hotelUuid in
     if existingId >? 0 then
       let* affectedRows := updateMarketData existingId data in
       ret (ActionUpdate affectedRows existingId)
     else
       let dataWithUuid := set data "hotel_uuid" hotelUuid in
       let* insertId := insertMarketData dataWithUuid in
       ret (ActionInsert insertId))
    (fun error => throw error).

(** ** index.js: the loop of [main] over the hotels

    [for (let i = 0; i < hotels.length; i++)]: each hotel in its
    [try]/[catch], then three seconds of pause unless it was the last
    ([i < hotels.length - 1], that is, hotels remain). *)
Fixpoint processHotels (SCRAPE_MAX_TRY : option string) (hotels : list Hotel.t)
  : M unit :=
  match hotels with
  | [] => ret tt
  | hotel :: remaining =>
      let* _ :=
        tryCatch (processHotelWithRetry SCRAPE_MAX_TRY hotel)
                 (fun error => ret tt) in
      let* _ :=
        (match remaining with
         | [] => ret tt
         | _ :: _ => sleep 3000
         end) in
      processHotels SCRAPE_MAX_TRY remaining
  end.

(** * Vocabulary of the statements *)

Definition validColumn (key : string) : bool :=
  bool_decide (key ∈ allFieldNames) || String.eqb key "hotel_uuid".

(** The statement [insertMarketData] builds from the filtered record. *)
Definition insertStatement (data : object) : Db.query Db.ResultSetHeader :=
  let filteredData := filterValidFields data in
  Db.InsertInto (keys filteredData)
    (List.map (λ col, nullish (get filteredData col) VNull) (keys filteredData)).

(** The statement [updateMarketData] builds. *)
Definition updateStatement (id : Z) (data : object) : Db.query Db.ResultSetHeader :=
  let filteredData := filterValidFields (delete "hotel_uuid" data) in
  Db.UpdateWhereId
    (List.map Db.SetParam (keys filteredData)
     ++ [Db.SetCurrentTimestamp "updated_at"])
    (List.map (λ col, nullish (get filteredData col) VNull) (keys filteredData)
     ++ [VNum id]).

(** The request one pass sends for an accumulator. *)
Definition askFor (hotel : Hotel.t) (accumulatedData : object) : call (list object) :=
  DataCompletion (Hotel.name hotel)
    (AIService.fieldsFor (Some (getEmptyFields (Some accumulatedData) allFieldNames)))
    true.

(** What the loop itself adds to the history: requests and waits. *)
Definition loopEvent (e : event) : bool :=
  match e with
  | Called (DataCompletion _ _ _) => true
  | Waited _ => true
  | Called _ => false
  end.

Definition safeAssignment (a : Db.assignment) : bool :=
  match a with
  | Db.SetParam column => validColumn column
  | Db.SetCurrentTimestamp column => String.eqb column "updated_at"
  end.

(** An event is schema-safe when it is not a write, or a write whose
    columns are field names of the schema or [hotel_uuid], apart from the
    timestamp an [UPDATE] sets on the server. *)
Definition schemaSafe (e : event) : bool :=
  match e with
  | Called c =>
      match c with
      | PoolExecute q =>
          match q with
          | Db.InsertInto columns _ => forallb validColumn columns
          | Db.UpdateWhereId assignments _ => forallb safeAssignment assignments
          | _ => true
          end
      | _ => true
      end
  | Waited _ => true
  end.

(** A write to the table. *)
Definition isWrite (e : event) : bool :=
  match e with
  | Called c =>
      match c with
      | PoolExecute q =>
          match q with
          | Db.InsertInto _ _ | Db.UpdateWhereId _ _ => true
          | _ => false
          end
      | _ => false
      end
  | Waited _ => false
  end.

Definition finished (o : outcome Z) : outcome unit :=
  match o with
  | Returned _ => Returned tt
  | Threw e => Threw e
  end.

(** The persisted record the cycle reads at its start, if any. *)
Definition existingOf (w : world) (hotel : Hotel.t) : option object :=
  match w _ [] (PoolExecute (Db.SelectAll [VStr (Hotel.hotel_uuid hotel)])) with
  | Returned rows => head rows
  | Threw _ => None
  end.

Definition isFetch (e : event) : bool :=
  match e with
  | Called (DataCompletion _ _ _) => true
  | _ => false
  end.

(** The number of hotel-data requests in a history. *)
Definition fetchCalls (h : list event) : nat := length (List.filter isFetch h).

(** A record none of whose values is empty. *)
Definition filled (o : object) : Prop :=
  map_Forall (λ _ v, isEmpty v = false) o.

(** The three values a converted boolean field can have. *)
Definition triState (v : value) : bool :=
  match v with
  | VNum 0 | VNum 1 | VNull => true
  | _ => false
  end.

(** The history of a retry loop: nothing, or requests with a five-second
    wait between one and the next (none before the first or after the
    last). *)
Fixpoint attemptsShape (ev : list event) : bool :=
  match ev with
  | [] => true
  | e :: rest =>
      isFetch e
      && match rest with
         | [] => true
         | Waited ms :: rest' =>
             (ms =? 5000)
             && match rest' with [] => false | _ :: _ => attemptsShape rest' end
         | Called _ :: _ => false
         end
  end.

(** A write binds no empty value: every parameter of an UPDATE, and every
    parameter of an INSERT other than the one for [hotel_uuid], is not
    empty. *)
Definition writesNoEmptyValue (e : event) : bool :=
  match e with
  | Called c =>
      match c with
      | PoolExecute q =>
          match q with
          | Db.UpdateWhereId _ params => forallb (λ v, negb (isEmpty v)) params
          | Db.InsertInto columns params =>
              forallb (λ cv, String.eqb cv.1 "hotel_uuid" || negb (isEmpty cv.2))
                      (combine columns params)
          | _ => true
          end
      | _ => true
      end
  | Waited _ => true
  end.

(** The uuid a [SELECT *] read asks for. *)
Definition readUuid (e : event) : option value :=
  match e with
  | Called c =>
      match c with
      | PoolExecute q =>
          match q with
          | Db.SelectAll [uuid] => Some uuid
          | _ => None
          end
      | _ => None
      end
  | Waited _ => None
  end.

(** The pause between two hotels. *)
Definition isPause (e : event) : bool :=
  match e with
  | Waited ms => ms =? 3000
  | Called _ => false
  end.

(** What one hotel's cycle adds besides its read: requests, five-second
    waits and the saving part. *)
Definition cycleEvent (e : event) : bool :=
  match readUuid e with
  | Some _ => false
  | None => negb (isPause e)
  end.

(** The states a cycle's retry loop passes through, taken at the top of
    the loop: the attempt counter, the accumulator and the history so far.
    The loop starts after the read of the persisted record, with counter 0
    and the empty accumulator; a pass that does not leave the loop leads
    to the next state. *)
Inductive loopReaches (w : world) (hotel : Hotel.t) (maxAttempts : number)
  : Z → object → list event → Prop :=
  | reaches_start :
      loopReaches w hotel maxAttempts 0 ∅
        [Called (PoolExecute (Db.SelectAll [VStr (Hotel.hotel_uuid hotel)]))]
  | reaches_next (attempt : Z) (acc acc' : object) (h ev : list event) :
      loopReaches w hotel maxAttempts attempt acc h →
      lt attempt maxAttempts = true →
      attemptBody hotel maxAttempts (attempt + 1) acc w h
      = (Returned (Continue, acc'), ev) →
      loopReaches w hotel maxAttempts (attempt + 1) acc' (h ++ ev).

(** ** Example worlds *)

Definition inn : Hotel.t :=
  {| Hotel.id := 1; Hotel.hotel_uuid := "u1"; Hotel.name := "Inn" |}.

(** A persisted record with every field of the schema filled. *)
Definition filledRecord : object :=
  list_to_map (List.map (λ n, (n, VStr "known")) ("hotel_uuid" :: allFieldNames)).

(** A completion that answers every requested field. *)
Definition answerAll (fields : list FieldDescriptor) : object :=
  list_to_map (List.map (λ f, (name f, VStr "fresh")) fields).

(** The table holds [filledRecord] with id 7 for every uuid; everything
    succeeds. *)
Definition filledWorld : world := λ R h c,
  match c in call R return outcome R with
  | PoolExecute q =>
      match q in Db.query R return outcome R with
      | Db.SelectAll _ => Returned [filledRecord]
      | Db.SelectId _ => Returned [{| Db.id := 7 |}]
      | Db.InsertInto _ _ => Returned {| Db.insertId := 8; Db.affectedRows := 1 |}
      | Db.UpdateWhereId _ _ => Returned {| Db.insertId := 0; Db.affectedRows := 1 |}
      end
  | DataCompletion _ fields _ => Returned [answerAll fields]
  | FaqCompletion _ => Returned []
  end.

(** As [filledWorld], but the [SELECT id] query fails. *)
Definition lookupDownWorld : world := λ R h c,
  match c in call R return outcome R with
  | PoolExecute q =>
      match q in Db.query R return outcome R with
      | Db.SelectId _ => Threw {| message := "connect ETIMEDOUT" |}
      | q => filledWorld _ h (PoolExecute q)
      end
  | c => filledWorld _ h c
  end.

(** An empty table; the first request yields the hotel's name only, and
    later requests fail. *)
Definition flakyWorld : world := λ R h c,
  match c in call R return outcome R with
  | PoolExecute q =>
      match q in Db.query R return outcome R with
      | Db.SelectAll _ => Returned []
      | Db.SelectId _ => Returned []
      | Db.InsertInto _ _ => Returned {| Db.insertId := 1; Db.affectedRows := 1 |}
      | Db.UpdateWhereId _ _ => Returned {| Db.insertId := 0; Db.affectedRows := 0 |}
      end
  | DataCompletion _ _ _ =>
      if (fetchCalls h =? 0)%nat then Returned [{[ "name" := VStr "Inn" ]}]
      else Threw {| message := "Connection error." |}
  | FaqCompletion _ => Returned []
  end.

(** The accumulator and the history after the first attempt in
    [flakyWorld]. *)
Definition nameOnly : object := {[ "name" := VStr "Inn" ]}.

Definition afterFirstAttempt : list event :=
  [Called (PoolExecute (Db.SelectAll [VStr "u1"]));
   Called (DataCompletion "Inn" MD_ALL_FIELDS true);
   Waited 5000].

(** * Properties *)

(** ** Objects and the [forEach] loops over their keys *)

Section ObjectLemmas.

Implicit Types (o m : object) (k key : string) (ks : list string).

Lemma elem_of_keys o k : k ∈ keys o ↔ is_Some (o !! k).
Proof.
  unfold keys. rewrite list_elem_of_fmap. split.
  - intros [[k' v] [-> Hin]]. apply elem_of_map_to_list in Hin. by exists v.
  - intros [v Hv]. exists (k, v). split; [done|]. by apply elem_of_map_to_list.
Qed.

Lemma NoDup_keys o : NoDup (keys o).
Proof. apply NoDup_fst_map_to_list. Qed.

Lemma get_Some o k v : o !! k = Some v → get o k = v.
Proof. unfold get. by intros ->. Qed.

Lemma get_None o k : o !! k = None → get o k = VUndefined.
Proof. unfold get. by intros ->. Qed.

(** A loop whose step assigns [f key] to the keys that pass [P] and
    leaves the others alone. *)
Lemma lookup_forEach_set (step : object → string → object)
    (P : string → bool) (f : string → value) ks m k :
  (∀ acc key, step acc key = if P key then set acc key (f key) else acc) →
  foldl step m ks !! k
  = if bool_decide (k ∈ ks) && P k then Some (f k) else m !! k.
Proof.
  intros Hstep. revert m. induction ks as [|key ks IH]; intros m; simpl.
  - done.
  - rewrite IH, Hstep. destruct (decide (k = key)) as [->|Hne].
    + rewrite (bool_decide_eq_true_2 (key ∈ key :: ks)) by left.
      destruct (P key) eqn:HP; simpl.
      * unfold set. rewrite lookup_insert_eq.
        by destruct (bool_decide (key ∈ ks)).
      * by rewrite andb_false_r.
    + assert (bool_decide (k ∈ key :: ks) = bool_decide (k ∈ ks)) as ->.
      { apply bool_decide_ext. rewrite elem_of_cons. tauto. }
      destruct (bool_decide (k ∈ ks) && P k); [done|].
      destruct (P key); [|done]. unfold set. by rewrite lookup_insert_ne.
Qed.

Lemma position_Some_elem (key : string) (names : list string) :
  key ∈ names ↔ is_Some (position key names).
Proof.
  induction names as [|n names IH]; simpl.
  - split; [by intros ?%elem_of_nil|by intros [? ?]].
  - rewrite elem_of_cons. destruct (String.eqb_spec key n) as [->|Hne].
    + split; [by eexists|by left].
    + rewrite fmap_is_Some, <- IH. split; [by intros [?|?]|by right].
Qed.

Lemma inherited_Some_elem (key : string) :
  key ∈ objectPrototype ↔ is_Some (inherited key).
Proof. unfold inherited. by rewrite fmap_is_Some, position_Some_elem. Qed.

Lemma read_own o k v : o !! k = Some v → read o k = v.
Proof. unfold read. by intros ->. Qed.

End ObjectLemmas.

(** ** Emptiness *)

Lemma isEmpty_true_iff (v : value) :
  isEmpty v = true ↔ v = VNull ∨ v = VUndefined ∨ v = VStr "" ∨ v = VStr "N/A".
Proof.
  unfold isEmpty. split.
  - destruct v as [| |b|z|s|a]; simpl; try discriminate; auto.
    rewrite orb_true_iff, !String.eqb_eq. intros [->| ->]; auto.
  - intros [->|[->|[->| ->]]]; reflexivity.
Qed.

(** The guard of [mergeDataSafely] is the negation of [isEmpty]. *)
Lemma merge_guard (v : value) :
  negb (strictEq v VNull) && negb (strictEq v VUndefined)
  && negb (strictEq v (VStr "")) && negb (strictEq v (VStr "N/A"))
  = negb (isEmpty v).
Proof. unfold isEmpty. by rewrite !negb_orb. Qed.

(** ** Safe merge *)

Lemma lookup_mergeDataSafely (A B : object) (k : string) :
  mergeDataSafely A B !! k =
  match B !! k with
  | Some v => if isEmpty v then A !! k else Some v
  | None => A !! k
  end.
Proof.
  unfold mergeDataSafely.
  rewrite (lookup_forEach_set _ (λ key, negb (isEmpty (get B key))) (get B))
    by (intros acc key; simpl; by rewrite merge_guard).
  destruct (B !! k) as [v|] eqn:HB.
  - rewrite (bool_decide_eq_true_2 (k ∈ keys B))
      by (apply elem_of_keys; eauto).
    rewrite (get_Some _ _ _ HB). simpl. by destruct (isEmpty v).
  - rewrite (bool_decide_eq_false_2 (k ∈ keys B)); [done|].
    rewrite elem_of_keys, HB. by intros [? ?].
Qed.

Lemma get_mergeDataSafely (A B : object) (k : string) :
  get (mergeDataSafely A B) k = if isEmpty (get B k) then get A k else get B k.
Proof.
  unfold get at 1. rewrite lookup_mergeDataSafely.
  destruct (B !! k) as [v|] eqn:HB.
  - rewrite (get_Some _ _ _ HB). by destruct (isEmpty v).
  - by rewrite (get_None _ _ HB).
Qed.

Lemma read_mergeDataSafely (A B : object) (k : string) :
  read (mergeDataSafely A B) k = if isEmpty (get B k) then read A k else get B k.
Proof.
  unfold read at 1. rewrite lookup_mergeDataSafely.
  destruct (B !! k) as [v|] eqn:HB.
  - rewrite (get_Some _ _ _ HB). by destruct (isEmpty v).
  - by rewrite (get_None _ _ HB).
Qed.

(** ** Schema filter *)

Lemma lookup_filterValidFields (data : object) (k : string) :
  filterValidFields data !! k = if validColumn k then data !! k else None.
Proof.
  unfold filterValidFields.
  rewrite (lookup_forEach_set _ validColumn (get data)).
  - destruct (data !! k) as [v|] eqn:Hd.
    + rewrite (bool_decide_eq_true_2 (k ∈ keys data))
        by (apply elem_of_keys; eauto).
      by rewrite (get_Some _ _ _ Hd).
    + rewrite (bool_decide_eq_false_2 (k ∈ keys data)).
      * simpl. by destruct (validColumn k).
      * rewrite elem_of_keys, Hd. by intros [? ?].
  - intros acc key. unfold validColumn, allFieldNames.
    rewrite (bool_decide_ext (key ∈ (list_to_set (List.map name MD_ALL_FIELDS) : gset string))
               (key ∈ List.map name MD_ALL_FIELDS)); [done|].
    apply elem_of_list_to_set.
Qed.

Lemma convertBooleanValues_id (data : object) : convertBooleanValues data = data.
Proof. reflexivity. Qed.

(** ** What each service call does to the world *)

Section Runs.

Variable w : world.
Implicit Types (h : list event) (data : object).

Lemma executeQuery_run {R} (q : Db.query R) h :
  executeQuery q w h = (w R h (PoolExecute q), [Called (PoolExecute q)]).
Proof.
  unfold executeQuery, tryCatch, perform, throw.
  destruct (w R h (PoolExecute q)); [done|]. by rewrite app_nil_r.
Qed.

Lemma getIdByUuid_run (hotelUuid : value) h :
  getIdByUuid hotelUuid w h =
  (Returned match w _ h (PoolExecute (Db.SelectId [hotelUuid])) with
            | Returned (result :: _) => Db.id result
            | Returned [] | Threw _ => 0
            end,
   [Called (PoolExecute (Db.SelectId [hotelUuid]))]).
Proof.
  unfold getIdByUuid, tryCatch, bind, ret. rewrite executeQuery_run.
  destruct (w _ h _) as [[|result rows]|e]; simpl; by rewrite ?app_nil_r.
Qed.

Lemma getMarketDataByUuid_run (hotelUuid : value) h :
  getMarketDataByUuid hotelUuid w h =
  (Returned match w _ h (PoolExecute (Db.SelectAll [hotelUuid])) with
            | Returned rows => head rows
            | Threw _ => None
            end,
   [Called (PoolExecute (Db.SelectAll [hotelUuid]))]).
Proof.
  unfold getMarketDataByUuid, tryCatch, bind, ret. rewrite executeQuery_run.
  destruct (w _ h _) as [rows|e]; simpl; by rewrite ?app_nil_r.
Qed.

Lemma insertMarketData_run data h :
  insertMarketData data w h =
  match keys (filterValidFields data) with
  | [] => (Threw {| message := "No valid fields provided for insertion" |}, [])
  | _ :: _ =>
      (match w _ h (PoolExecute (insertStatement data)) with
       | Returned result => Returned (Db.insertId result)
       | Threw e => Threw e
       end,
       [Called (PoolExecute (insertStatement data))])
  end.
Proof.
  unfold insertMarketData, insertStatement. rewrite convertBooleanValues_id.
  destruct (keys (filterValidFields data)) as [|c cs] eqn:Hk; [done|].
  change (length (c :: cs) =? 0)%nat with false. cbv iota.
  unfold tryCatch, bind, ret, throw. rewrite executeQuery_run.
  destruct (w _ h _) as [result|e]; simpl; by rewrite ?app_nil_r.
Qed.

Lemma updateMarketData_run (id : Z) data h :
  updateMarketData id data w h =
  match keys (filterValidFields (delete "hotel_uuid" data)) with
  | [] => (Returned 0, [])
  | _ :: _ =>
      (match w _ h (PoolExecute (updateStatement id data)) with
       | Returned result => Returned (Db.affectedRows result)
       | Threw e => Threw e
       end,
       [Called (PoolExecute (updateStatement id data))])
  end.
Proof.
  unfold updateMarketData, updateStatement. rewrite convertBooleanValues_id.
  destruct (keys (filterValidFields (delete "hotel_uuid" data)))
    as [|c cs] eqn:Hk; [done|].
  change (length (c :: cs) =? 0)%nat with false. cbv iota.
  unfold tryCatch, bind, ret, throw. rewrite executeQuery_run.
  destruct (w _ h _) as [result|e]; simpl; by rewrite ?app_nil_r.
Qed.

Lemma fetchHotelData_run (hotelName : string) (names : list string) h :
  AIService.fetchHotelData hotelName (Some names) w h =
  match AIService.fieldsFor (Some names) with
  | [] => (Threw {| message := "No fields to fetch" |}, [])
  | _ :: _ =>
      let ask := DataCompletion hotelName (AIService.fieldsFor (Some names)) true in
      (match w _ h ask with
       | Returned [] => Threw {| message := "No JSON found in response" |}
       | Returned (parsedJson :: _) => Returned parsedJson
       | Threw e => Threw e
       end,
       [Called ask])
  end.
Proof.
  unfold AIService.fetchHotelData.
  destruct (AIService.fieldsFor (Some names)) as [|f fs] eqn:Hf; [done|].
  change (length (f :: fs) =? 0)%nat with false. cbv iota zeta.
  unfold tryCatch, bind, perform, ret, throw.
  change (bool_decide (is_Some (Some names))) with true.
  destruct (w _ h _) as [[|parsedJson rest]|e]; simpl; by rewrite ?app_nil_r.
Qed.

Lemma fetchAndPrintHotelFAQ_run (hotelName : string) h :
  fetchAndPrintHotelFAQ hotelName w h =
  (Returned tt, [Called (FaqCompletion hotelName)]).
Proof.
  unfold fetchAndPrintHotelFAQ, AIService.fetchHotelFAQ, tryCatch, bind,
    perform, ret, throw.
  destruct (w _ h _) as [faqs|e]; simpl; by rewrite ?app_nil_r.
Qed.

End Runs.

(** ** The field names asked of the completion service *)

Lemma getEmptyFields_subseteq (acc : object) (F : list string) :
  getEmptyFields (Some acc) F ⊆ F.
Proof.
  intros n Hn. apply list_elem_of_In in Hn. apply filter_In in Hn as [Hn _].
  by apply list_elem_of_In.
Qed.

Lemma fieldsFor_nonempty (names : list string) (n : string) :
  n ∈ names → n ∈ allFieldNames → AIService.fieldsFor (Some names) ≠ [].
Proof.
  intros Hn Hall. unfold allFieldNames in Hall.
  apply list_elem_of_In, in_map_iff in Hall as [f [<- Hf]].
  assert (In f (AIService.fieldsFor (Some names))) as Hin.
  { apply filter_In. split; [done|]. by apply bool_decide_eq_true_2. }
  intros Hnil. by rewrite Hnil in Hin.
Qed.

Lemma fieldsFor_emptyFields (acc : object) :
  getEmptyFields (Some acc) allFieldNames ≠ [] →
  AIService.fieldsFor (Some (getEmptyFields (Some acc) allFieldNames)) ≠ [].
Proof.
  intros Hne.
  destruct (getEmptyFields (Some acc) allFieldNames) as [|n ns] eqn:He; [done|].
  apply (fieldsFor_nonempty _ n); [left|].
  apply (getEmptyFields_subseteq acc). rewrite He. left.
Qed.

(** ** The retry loop *)

Section Loop.

Variable w : world.
Variable hotel : Hotel.t.
Variable maxAttempts : number.
Implicit Types (h : list event) (acc : object) (attempt : Z).

Lemma attemptBody_run attempt acc h :
  attemptBody hotel maxAttempts attempt acc w h =
  match getEmptyFields (Some acc) allFieldNames with
  | [] => (Returned (Break, acc), [])
  | _ :: _ =>
      match w _ h (askFor hotel acc) with
      | Returned (newData :: _) =>
          let acc' := mergeDataSafely acc newData in
          match getEmptyFields (Some acc') allFieldNames with
          | [] => (Returned (Break, acc'), [Called (askFor hotel acc)])
          | _ :: _ =>
              if lt attempt maxAttempts
              then (Returned (Continue, acc'),
                    [Called (askFor hotel acc); Waited 5000])
              else (Returned (Continue, acc'), [Called (askFor hotel acc)])
          end
      | Returned [] | Threw _ =>
          if ge attempt maxAttempts
          then (Returned (Break, acc), [Called (askFor hotel acc)])
          else (Returned (Continue, acc),
                [Called (askFor hotel acc); Waited 5000])
      end
  end.
Proof.
  unfold attemptBody.
  pose proof (fieldsFor_emptyFields acc) as Hfields.
  destruct (getEmptyFields (Some acc) allFieldNames) as [|n ns] eqn:He; [done|].
  change (length (n :: ns) =? 0)%nat with false. cbv iota.
  unfold tryCatch at 1. unfold bind at 1. rewrite fetchHotelData_run.
  unfold askFor. rewrite He.
  destruct (AIService.fieldsFor (Some (n :: ns))) as [|f fs] eqn:Hf.
  { by destruct Hfields. }
  cbv zeta.
  destruct (w _ h _) as [[|newData rest]|e].
  - destruct (ge attempt maxAttempts); unfold bind, sleep, ret; simpl; done.
  - cbv zeta.
    destruct (getEmptyFields (Some (mergeDataSafely acc newData)) allFieldNames)
      as [|r rs] eqn:Hr.
    + simpl. done.
    + change (length (r :: rs) =? 0)%nat with false.
      change (0 <? length (r :: rs))%nat with true.
      rewrite andb_true_r. cbv iota.
      destruct (lt attempt maxAttempts); unfold bind, sleep, ret; simpl; done.
  - destruct (ge attempt maxAttempts); unfold bind, sleep, ret; simpl; done.
Qed.

(** A pass never throws, and adds only requests and waits. *)
Lemma attemptBody_returns attempt acc h :
  ∃ ctl acc' ev,
    attemptBody hotel maxAttempts attempt acc w h = (Returned (ctl, acc'), ev)
    ∧ forallb loopEvent ev = true.
Proof.
  rewrite attemptBody_run.
  destruct (getEmptyFields (Some acc) allFieldNames); [by eauto|].
  destruct (w _ h _) as [[|newData rest]|e].
  - destruct (ge attempt maxAttempts); by eauto.
  - cbv zeta. destruct (getEmptyFields _ allFieldNames); [by eauto|].
    destruct (lt attempt maxAttempts); by eauto.
  - destruct (ge attempt maxAttempts); by eauto.
Qed.

Lemma attemptLoop_returns fuel attempt acc h :
  ∃ acc' attempt' ev,
    attemptLoop fuel hotel maxAttempts attempt acc w h
    = (Returned (acc', attempt'), ev)
    ∧ forallb loopEvent ev = true.
Proof.
  revert attempt acc h. induction fuel as [|fuel IH]; intros attempt acc h.
  - by exists acc, attempt, [].
  - simpl. destruct (lt attempt maxAttempts); [|by exists acc, attempt, []].
    unfold bind.
    destruct (attemptBody_returns (attempt + 1) acc h)
      as (ctl & acc1 & ev1 & -> & Hev1).
    destruct ctl.
    + exists acc1, (attempt + 1), (ev1 ++ []). split; [done|].
      by rewrite app_nil_r.
    + destruct (IH (attempt + 1) acc1 (h ++ ev1))
        as (acc2 & attempt2 & ev2 & -> & Hev2).
      exists acc2, attempt2, (ev1 ++ ev2). split; [done|].
      by rewrite forallb_app, Hev1, Hev2.
Qed.

End Loop.

(** The loop condition, not the fuel, ends the loop: more fuel than
    [passes] changes nothing. *)
Lemma attemptLoop_fuel_enough (w : world) (hotel : Hotel.t) (maxAttempts : number)
    (fuel : nat) (attempt : Z) (acc : object) (h : list event) :
  (passes maxAttempts attempt ≤ fuel)%nat →
  attemptLoop fuel hotel maxAttempts attempt acc w h
  = attemptLoop (passes maxAttempts attempt) hotel maxAttempts attempt acc w h.
Proof.
  destruct maxAttempts as [|n].
  { by destruct fuel. }
  revert attempt acc h. induction fuel as [|fuel IH]; intros attempt acc h Hle.
  - by replace (passes (Num n) attempt) with 0%nat by lia.
  - simpl passes in *.
    destruct (decide (attempt < n)) as [Hlt|Hge].
    + replace (Z.to_nat (n - attempt)) with (S (Z.to_nat (n - (attempt + 1))))
        by lia.
      simpl. destruct (attempt <? n); [|done].
      unfold bind.
      destruct (attemptBody hotel (Num n) (attempt + 1) acc w h)
        as [[[[|] acc1]|e] ev1]; [done| |done].
      rewrite IH; [done|]. simpl. lia.
    + replace (Z.to_nat (n - attempt)) with 0%nat by lia.
      simpl. by rewrite (proj2 (Z.ltb_ge attempt n)) by lia.
Qed.

(** ** Columns that reach a statement *)

Lemma elem_of_keys_filterValidFields (data : object) (k : string) :
  k ∈ keys (filterValidFields data) ↔ validColumn k = true ∧ is_Some (data !! k).
Proof.
  rewrite elem_of_keys, lookup_filterValidFields.
  destruct (validColumn k); [tauto|].
  split; [by intros [? ?]|by intros [? ?]].
Qed.

Lemma hotel_uuid_not_a_field : "hotel_uuid" ∉ allFieldNames.
Proof.
  intros H. apply (bool_decide_eq_true_2 _) in H. vm_compute in H. discriminate.
Qed.

Lemma elem_of_update_columns (data : object) (k : string) :
  k ∈ keys (filterValidFields (delete "hotel_uuid" data))
  ↔ k ∈ allFieldNames ∧ is_Some (data !! k).
Proof.
  rewrite elem_of_keys_filterValidFields. unfold validColumn.
  rewrite orb_true_iff, bool_decide_eq_true, String.eqb_eq.
  destruct (decide (k = "hotel_uuid")) as [->|Hne].
  - rewrite lookup_delete_eq. pose proof hotel_uuid_not_a_field.
    split; [by intros [_ [? ?]]|by intros [? _]].
  - rewrite lookup_delete_ne by done. tauto.
Qed.

Lemma loopEvent_schemaSafe (ev : list event) :
  forallb loopEvent ev = true → forallb schemaSafe ev = true.
Proof.
  rewrite !forallb_forall. intros H e He. specialize (H e He).
  destruct e as [R c|ms]; [|done]. by destruct c.
Qed.

Lemma loopEvent_not_write (ev : list event) :
  forallb loopEvent ev = true → forallb (λ e, negb (isWrite e)) ev = true.
Proof.
  rewrite !forallb_forall. intros H e He. specialize (H e He).
  destruct e as [R c|ms]; [|done]. by destruct c.
Qed.

Lemma insertStatement_schemaSafe (data : object) :
  schemaSafe (Called (PoolExecute (insertStatement data))) = true.
Proof.
  simpl. apply forallb_forall. intros k Hk.
  apply list_elem_of_In, elem_of_keys_filterValidFields in Hk. tauto.
Qed.

Lemma updateStatement_schemaSafe (id : Z) (data : object) :
  schemaSafe (Called (PoolExecute (updateStatement id data))) = true.
Proof.
  simpl. rewrite forallb_app. apply andb_true_iff. split; [|done].
  apply forallb_forall. intros a Ha. apply in_map_iff in Ha as [k [<- Hk]].
  apply list_elem_of_In, elem_of_update_columns in Hk as [Hk _].
  simpl. unfold validColumn. by rewrite bool_decide_eq_true_2.
Qed.

Lemma insertMarketData_schemaSafe (w : world) (data : object) (h : list event) :
  forallb schemaSafe (insertMarketData data w h).2 = true.
Proof.
  rewrite insertMarketData_run.
  destruct (keys (filterValidFields data)); [done|].
  cbn [snd forallb]. by rewrite insertStatement_schemaSafe.
Qed.

Lemma updateMarketData_schemaSafe (w : world) (id : Z) (data : object)
    (h : list event) :
  forallb schemaSafe (updateMarketData id data w h).2 = true.
Proof.
  rewrite updateMarketData_run.
  destruct (keys (filterValidFields (delete "hotel_uuid" data))); [done|].
  cbn [snd forallb]. by rewrite updateStatement_schemaSafe.
Qed.

(** ** Saving, and the whole cycle *)

Section Cycle.

Variable w : world.
Variable hotel : Hotel.t.
Implicit Types (h : list event) (acc : object).

Let uuid : value := VStr (Hotel.hotel_uuid hotel).
Let lookup : event := Called (PoolExecute (Db.SelectId [uuid])).

Lemma saveToDatabase_update (row : object) acc h :
  saveToDatabase hotel (Some row) acc w h =
  match (getIdByUuid uuid w h).1 with
  | Returned existingId =>
      if existingId >? 0 then
        (finished (updateMarketData existingId acc w (h ++ [lookup])).1,
         lookup :: (updateMarketData existingId acc w (h ++ [lookup])).2)
      else (Returned tt, [lookup])
  | Threw e => (Threw e, [lookup])
  end.
Proof.
  unfold saveToDatabase, tryCatch at 1. unfold bind at 1.
  subst uuid lookup. rewrite getIdByUuid_run. cbn [fst snd].
  destruct (_ >? 0).
  - unfold bind, ret, throw.
    destruct (updateMarketData _ acc w _) as [[n|e] ev]; simpl;
      by rewrite ?app_nil_r.
  - done.
Qed.

Lemma saveToDatabase_insert acc h :
  saveToDatabase hotel None acc w h =
  (finished (insertMarketData (set acc "hotel_uuid" uuid) w h).1,
   (insertMarketData (set acc "hotel_uuid" uuid) w h).2).
Proof.
  unfold saveToDatabase, tryCatch, bind, ret, throw. subst uuid.
  destruct (insertMarketData _ w h) as [[n|e] ev]; simpl;
    by rewrite ?app_nil_r.
Qed.

Lemma saveToDatabase_schemaSafe existingData acc h :
  forallb schemaSafe (saveToDatabase hotel existingData acc w h).2 = true.
Proof.
  destruct existingData as [row|].
  - rewrite saveToDatabase_update.
    destruct (getIdByUuid uuid w h).1 as [existingId|e]; [|done].
    destruct (existingId >? 0); [|done].
    cbn [snd forallb]. by rewrite updateMarketData_schemaSafe.
  - rewrite saveToDatabase_insert. apply insertMarketData_schemaSafe.
Qed.

Lemma afterLoop_run existingData acc h :
  afterLoop hotel existingData acc w h =
  match saveToDatabase hotel existingData acc w h with
  | (Returned _, ev) => (Returned tt, ev ++ [Called (FaqCompletion (Hotel.name hotel))])
  | (Threw e, ev) => (Threw e, ev)
  end.
Proof.
  unfold afterLoop, bind.
  destruct (saveToDatabase hotel existingData acc w h) as [[[]|e] ev]; [|done].
  by rewrite fetchAndPrintHotelFAQ_run.
Qed.

End Cycle.

Lemma maxAttemptsOf_floor (SCRAPE_MAX_TRY : option string) (n : Z) :
  maxAttemptsOf SCRAPE_MAX_TRY = Num n → 1 ≤ n.
Proof.
  unfold maxAttemptsOf, Math_max. destruct (parseInt _); [done|].
  intros [= <-]. lia.
Qed.

Section WholeCycle.

Variable w : world.
Variable hotel : Hotel.t.
Variable SCRAPE_MAX_TRY : option string.

Let uuid : value := VStr (Hotel.hotel_uuid hotel).
Let read : event := Called (PoolExecute (Db.SelectAll [uuid])).
Let maxAttempts : number := maxAttemptsOf SCRAPE_MAX_TRY.

(** The cycle is: read the record, loop, then [afterLoop] on what the
    loop accumulated; the loop always hands over an accumulator. *)
Lemma processHotelWithRetry_run :
  ∃ acc attempt ev,
    attemptLoop (passes maxAttempts 0) hotel maxAttempts 0 ∅ w [read]
    = (Returned (acc, attempt), ev)
    ∧ forallb loopEvent ev = true
    ∧ run w (processHotelWithRetry SCRAPE_MAX_TRY hotel)
      = ((afterLoop hotel (existingOf w hotel) acc w (read :: ev)).1,
         read :: ev ++ (afterLoop hotel (existingOf w hotel) acc w (read :: ev)).2).
Proof.
  destruct (attemptLoop_returns w hotel maxAttempts (passes maxAttempts 0) 0 ∅ [read])
    as (acc & attempt & ev & Hloop & Hev).
  exists acc, attempt, ev. split; [done|]. split; [done|].
  unfold run, processHotelWithRetry. unfold bind at 1.
  rewrite getMarketDataByUuid_run. fold uuid read maxAttempts.
  unfold retryThenSave, bind. simpl app. rewrite Hloop.
  unfold existingOf. fold uuid.
  by destruct (afterLoop hotel _ acc w (read :: ev)) as [o ev'].
Qed.

End WholeCycle.

(** * The specification's claims *)

(** C4. A value is empty exactly when it is [null], [undefined], the empty
    string or the string "N/A" in this exact case (so "n/a" is not
    empty); [getEmptyFields] returns the whole list of names when there is
    no record, and otherwise the names, in their order, whose value in the
    record, [record[name]], is empty.  A name the record lacks reads as
    [undefined], and so is empty, unless it is one of the names every
    object inherits from [Object.prototype] ([constructor], [toString],
    ...), which read as a function and are not empty. *)
Theorem C4_emptiness_policy :
  (∀ v, isEmpty v = true ↔ v = VNull ∨ v = VUndefined ∨ v = VStr "" ∨ v = VStr "N/A")
  ∧ isEmpty (VStr "n/a") = false
  ∧ (∀ F, getEmptyFields None F = F)
  ∧ (∀ (R : object) n v, R !! n = Some v → read R n = v)
  ∧ (∀ (R : object) n, R !! n = None →
       read R n = if bool_decide (n ∈ objectPrototype)
                  then default VUndefined (inherited n) else VUndefined)
  ∧ (∀ n, n ∈ objectPrototype → ∃ address, inherited n = Some (VRef address))
  ∧ (∀ R, getEmptyFields (Some R) [] = [])
  ∧ (∀ R n F, getEmptyFields (Some R) (n :: F)
              = if isEmpty (read R n) then n :: getEmptyFields (Some R) F
                else getEmptyFields (Some R) F)
  ∧ (∀ R F, sublist (getEmptyFields (Some R) F) F)
  ∧ (∀ R F n, n ∈ getEmptyFields (Some R) F ↔ n ∈ F ∧ isEmpty (read R n) = true)
  ∧ getEmptyFields (Some ∅) ["constructor"; "name"; "toString"] = ["name"].
Proof.
  split_and!.
  - apply isEmpty_true_iff.
  - reflexivity.
  - reflexivity.
  - intros R n v Hn. unfold read. by rewrite Hn.
  - intros R n Hn. unfold read. rewrite Hn. case_bool_decide as Hin; [done|].
    destruct (inherited n) as [v|] eqn:Hi; [|done].
    destruct Hin. by apply inherited_Some_elem; eexists.
  - intros n Hn. apply inherited_Some_elem in Hn as [v Hv].
    unfold inherited in *. destruct (position n objectPrototype); [|done].
    by eexists.
  - reflexivity.
  - reflexivity.
  - intros R F. induction F as [|n F IH]; simpl; [done|].
    destruct (isEmpty (read R n)); [by apply sublist_skip|by apply sublist_cons].
  - intros R F n. simpl. rewrite list_elem_of_In, filter_In, <- list_elem_of_In.
    done.
  - reflexivity.
Qed.


(** C5. [filterValidFields] keeps exactly the entries whose key is a field
    name of the schema or [hotel_uuid], with their values, and drops the
    rest: of [malicious_column] and [name] only [name] is left. *)
Theorem C5_filterValidFields_keeps_schema_keys :
  (∀ (data : object) (k : string),
     filterValidFields data !! k
     = if bool_decide (k ∈ allFieldNames ∨ k = "hotel_uuid") then data !! k else None)
  ∧ filterValidFields
      {[ "malicious_column" := VStr "DROP TABLE"; "name" := VStr "Inn" ]}
    = {[ "name" := VStr "Inn" ]}.
Proof.
  split; [|by vm_compute].
  intros data k. rewrite lookup_filterValidFields. unfold validColumn.
  destruct (bool_decide (k ∈ allFieldNames)) eqn:Hk; simpl.
  - apply bool_decide_eq_true in Hk. by rewrite bool_decide_eq_true_2 by tauto.
  - apply bool_decide_eq_false in Hk.
    destruct (String.eqb_spec k "hotel_uuid") as [->|Hne].
    + by rewrite bool_decide_eq_true_2 by tauto.
    + by rewrite bool_decide_eq_false_2 by tauto.
Qed.

(** C10. With an empty [BOOLEAN_FIELDS], [convertBooleanValues] returns a
    record equal to its input, so [insertMarketData] and
    [updateMarketData] bind, for each column of the schema-filtered
    record, that record's own value ([undefined] is bound as SQL NULL by
    the [?? null] in both). *)
Theorem C10_convertBooleanValues_identity :
  BOOLEAN_FIELDS = []
  ∧ (∀ data : object, convertBooleanValues data = data)
  ∧ (∀ (w : world) (h : list event) (data : object),
       let filteredData := filterValidFields data in
       (insertMarketData data w h).2
       = match keys filteredData with
         | [] => []
         | columns =>
             [Called (PoolExecute
                (Db.InsertInto columns
                   (List.map (λ col, nullish (get filteredData col) VNull) columns)))]
         end)
  ∧ (∀ (w : world) (h : list event) (id : Z) (data : object),
       let filteredData := filterValidFields (delete "hotel_uuid" data) in
       (updateMarketData id data w h).2
       = match keys filteredData with
         | [] => []
         | columns =>
             [Called (PoolExecute
                (Db.UpdateWhereId
                   (List.map Db.SetParam columns ++ [Db.SetCurrentTimestamp "updated_at"])
                   (List.map (λ col, nullish (get filteredData col) VNull) columns
                    ++ [VNum id])))]
         end).
Proof.
  split; [done|]. split; [done|]. split.
  - intros w h data. cbv zeta. rewrite insertMarketData_run.
    unfold insertStatement. by destruct (keys (filterValidFields data)).
  - intros w h id data. cbv zeta. rewrite updateMarketData_run.
    unfold updateStatement.
    by destruct (keys (filterValidFields (delete "hotel_uuid" data))).
Qed.

(** ** Persistence *)

(** Errors of [insertMarketData] and [updateMarketData] are those of the
    pool, unchanged. *)
Lemma insertMarketData_rethrows (w : world) (data : object) (h : list event)
    (e : Error) :
  keys (filterValidFields data) ≠ [] →
  w _ h (PoolExecute (insertStatement data)) = Threw e →
  (insertMarketData data w h).1 = Threw e.
Proof.
  intros Hk Hw. rewrite insertMarketData_run.
  destruct (keys (filterValidFields data)); [done|]. by rewrite Hw.
Qed.

Lemma updateMarketData_rethrows (w : world) (id : Z) (data : object)
    (h : list event) (e : Error) :
  keys (filterValidFields (delete "hotel_uuid" data)) ≠ [] →
  w _ h (PoolExecute (updateStatement id data)) = Threw e →
  (updateMarketData id data w h).1 = Threw e.
Proof.
  intros Hk Hw. rewrite updateMarketData_run.
  destruct (keys (filterValidFields (delete "hotel_uuid" data))); [done|].
  by rewrite Hw.
Qed.

(** A failed [SELECT id] does not make [getIdByUuid] throw: it returns 0,
    the value that stands for "no record". *)
Lemma getIdByUuid_turns_failure_into_zero (w : world) (h : list event)
    (hotelUuid : value) (e : Error) :
  w _ h (PoolExecute (Db.SelectId [hotelUuid])) = Threw e →
  getIdByUuid hotelUuid w h
  = (Returned 0, [Called (PoolExecute (Db.SelectId [hotelUuid]))]).
Proof. intros Hw. by rewrite getIdByUuid_run, Hw. Qed.

(** C3 (the code departs from it). In [lookupDownWorld] the [SELECT id]
    query throws, and [getIdByUuid] returns 0 all the same, as it does
    when the table has no row for the uuid ([flakyWorld]); the errors of
    an INSERT and of an UPDATE do reach the caller unchanged. *)
Theorem C3_lookup_failure_returns_zero :
  lookupDownWorld _ [] (PoolExecute (Db.SelectId [VStr "u1"]))
  = Threw {| message := "connect ETIMEDOUT" |}
  ∧ run lookupDownWorld (getIdByUuid (VStr "u1"))
    = (Returned 0, [Called (PoolExecute (Db.SelectId [VStr "u1"]))])
  ∧ run flakyWorld (getIdByUuid (VStr "u1"))
    = (Returned 0, [Called (PoolExecute (Db.SelectId [VStr "u1"]))])
  ∧ (∀ (w : world) (h : list event) (data : object),
       (insertMarketData data w h).1
       = match keys (filterValidFields data) with
         | [] => Threw {| message := "No valid fields provided for insertion" |}
         | _ :: _ =>
             match w _ h (PoolExecute (insertStatement data)) with
             | Returned result => Returned (Db.insertId result)
             | Threw e => Threw e
             end
         end)
  ∧ (∀ (w : world) (h : list event) (id : Z) (data : object),
       (updateMarketData id data w h).1
       = match keys (filterValidFields (delete "hotel_uuid" data)) with
         | [] => Returned 0
         | _ :: _ =>
             match w _ h (PoolExecute (updateStatement id data)) with
             | Returned result => Returned (Db.affectedRows result)
             | Threw e => Threw e
             end
         end).
Proof.
  split_and!.
  - reflexivity.
  - by apply (getIdByUuid_turns_failure_into_zero lookupDownWorld []
                (VStr "u1") {| message := "connect ETIMEDOUT" |}).
  - reflexivity.
  - intros w h data. rewrite insertMarketData_run.
    by destruct (keys (filterValidFields data)).
  - intros w h id data. rewrite updateMarketData_run.
    by destruct (keys (filterValidFields (delete "hotel_uuid" data))).
Qed.

(** C7. [updateMarketData] never names [hotel_uuid] in its SET clause,
    even when the input has it: the assigned columns are the schema fields
    present in the input, followed by [updated_at = CURRENT_TIMESTAMP];
    with no such field it sends nothing and returns 0 without throwing. *)
Theorem C7_update_excludes_identifier (w : world) (h : list event) (id : Z)
    (data : object) :
  let columns := keys (filterValidFields (delete "hotel_uuid" data)) in
  ("hotel_uuid" ∉ columns)
  ∧ (∀ k, k ∈ columns ↔ k ∈ allFieldNames ∧ is_Some (data !! k))
  ∧ match columns with
    | [] => updateMarketData id data w h = (Returned 0, [])
    | _ :: _ =>
        (updateMarketData id data w h).2
        = [Called (PoolExecute
             (Db.UpdateWhereId
                (List.map Db.SetParam columns ++ [Db.SetCurrentTimestamp "updated_at"])
                (List.map (λ col, nullish (get (filterValidFields
                                                  (delete "hotel_uuid" data)) col) VNull)
                   columns ++ [VNum id])))]
    end.
Proof.
  cbv zeta. split_and!.
  - rewrite elem_of_update_columns. intros [H _].
    by apply hotel_uuid_not_a_field.
  - apply elem_of_update_columns.
  - rewrite updateMarketData_run. unfold updateStatement.
    by destruct (keys (filterValidFields (delete "hotel_uuid" data))).
Qed.

(** C8. Both writes filter first: the columns of the INSERT that
    [insertMarketData] sends and the assigned columns of the UPDATE that
    [updateMarketData] sends are field names of the schema or [hotel_uuid]
    (the UPDATE adds only its [updated_at] timestamp), a key of the input
    that is neither never reaches a statement, and the same holds of every
    statement of a whole processing cycle. *)
Theorem C8_writes_are_schema_filtered (w : world) (h : list event) (id : Z)
    (data : object) (SCRAPE_MAX_TRY : option string) (hotel : Hotel.t) :
  (insertMarketData data w h).2
  = match keys (filterValidFields data) with
    | [] => []
    | _ :: _ => [Called (PoolExecute (insertStatement data))]
    end
  ∧ (updateMarketData id data w h).2
    = match keys (filterValidFields (delete "hotel_uuid" data)) with
      | [] => []
      | _ :: _ => [Called (PoolExecute (updateStatement id data))]
      end
  ∧ schemaSafe (Called (PoolExecute (insertStatement data))) = true
  ∧ schemaSafe (Called (PoolExecute (updateStatement id data))) = true
  ∧ (∀ k, k ∈ keys (filterValidFields data)
          ↔ (k ∈ allFieldNames ∨ k = "hotel_uuid") ∧ is_Some (data !! k))
  ∧ forallb schemaSafe (run w (processHotelWithRetry SCRAPE_MAX_TRY hotel)).2 = true.
Proof.
  split_and!.
  - rewrite insertMarketData_run. by destruct (keys (filterValidFields data)).
  - rewrite updateMarketData_run.
    by destruct (keys (filterValidFields (delete "hotel_uuid" data))).
  - apply insertStatement_schemaSafe.
  - apply updateStatement_schemaSafe.
  - intros k. rewrite elem_of_keys_filterValidFields. unfold validColumn.
    by rewrite orb_true_iff, bool_decide_eq_true, String.eqb_eq.
  - destruct (processHotelWithRetry_run w hotel SCRAPE_MAX_TRY)
      as (acc & attempt & ev & _ & Hev & ->).
    cbn [snd forallb schemaSafe]. rewrite forallb_app.
    rewrite (loopEvent_schemaSafe _ Hev). simpl.
    rewrite afterLoop_run.
    pose proof (saveToDatabase_schemaSafe w hotel (existingOf w hotel) acc
                  (Called (PoolExecute (Db.SelectAll [VStr (Hotel.hotel_uuid hotel)]))
                   :: ev)) as Hsave.
    destruct (saveToDatabase hotel _ acc w _) as [[[]|e] ev']; simpl in *.
    + by rewrite forallb_app, Hsave.
    + done.
Qed.

(** ** The cycle as a whole *)

Lemma afterLoop_looks_up (w : world) (hotel : Hotel.t) (row acc : object)
    (h : list event) :
  ∃ ev, (afterLoop hotel (Some row) acc w h).2
        = Called (PoolExecute (Db.SelectId [VStr (Hotel.hotel_uuid hotel)])) :: ev.
Proof.
  rewrite afterLoop_run, saveToDatabase_update.
  destruct (getIdByUuid _ w h).1 as [existingId|e]; [|by eauto].
  destruct (existingId >? 0); [|by eauto].
  destruct (finished _) as [[]|e]; by eauto.
Qed.

Lemma attemptLoop_first_request (w : world) (hotel : Hotel.t) (maxAttempts : number)
    (fuel : nat) (attempt : Z) (acc : object) (h : list event) :
  lt attempt maxAttempts = true →
  getEmptyFields (Some acc) allFieldNames ≠ [] →
  ∃ rest, (attemptLoop (S fuel) hotel maxAttempts attempt acc w h).2
          = Called (askFor hotel acc) :: rest.
Proof.
  intros Hlt Hne. simpl. rewrite Hlt. unfold bind. rewrite attemptBody_run.
  destruct (getEmptyFields (Some acc) allFieldNames) as [|n ns]; [done|].
  destruct (w _ h (askFor hotel acc)) as [[|newData rest]|e]; cbv zeta.
  - destruct (ge _ _); [by eauto|]. destruct (attemptLoop _ _ _ _ _ _ _); by eauto.
  - destruct (getEmptyFields _ allFieldNames); [by eauto|].
    destruct (lt (attempt + 1) maxAttempts);
      destruct (attemptLoop _ _ _ _ _ _ _); by eauto.
  - destruct (ge _ _); [by eauto|]. destruct (attemptLoop _ _ _ _ _ _ _); by eauto.
Qed.

(** With nothing accumulated, every field of the schema is asked for. *)
Lemma askFor_empty (hotel : Hotel.t) :
  askFor hotel ∅ = DataCompletion (Hotel.name hotel) MD_ALL_FIELDS true.
Proof. unfold askFor. f_equal. Qed.

(** C1 (as the code has it). Empty-field detection looks at the in-memory
    accumulator only, and the accumulator starts empty: for an entity with
    a persisted record, whatever it holds, attempt 1 finds every field of
    the schema empty and asks the completion service for all of them;
    the reconciler still runs afterwards (the id lookup is sent). *)
Theorem C1_first_attempt_asks_for_every_field (w : world)
    (SCRAPE_MAX_TRY : option string) (hotel : Hotel.t) (n : Z)
    (row : object) (rows : list object) :
  maxAttemptsOf SCRAPE_MAX_TRY = Num n →
  w _ [] (PoolExecute (Db.SelectAll [VStr (Hotel.hotel_uuid hotel)]))
  = Returned (row :: rows) →
  getEmptyFields (Some ∅) allFieldNames = allFieldNames
  ∧ ∃ rest,
      (run w (processHotelWithRetry SCRAPE_MAX_TRY hotel)).2
      = Called (PoolExecute (Db.SelectAll [VStr (Hotel.hotel_uuid hotel)]))
        :: Called (DataCompletion (Hotel.name hotel) MD_ALL_FIELDS true)
        :: rest
      ∧ Called (PoolExecute (Db.SelectId [VStr (Hotel.hotel_uuid hotel)])) ∈ rest.
Proof.
  intros Hmax Hrow. split; [reflexivity|].
  destruct (processHotelWithRetry_run w hotel SCRAPE_MAX_TRY)
    as (acc & attempt & ev & Hloop & _ & ->).
  pose proof (maxAttemptsOf_floor _ _ Hmax) as Hn.
  rewrite Hmax in Hloop. simpl passes in Hloop.
  replace (Z.to_nat (n - 0)) with (S (Z.to_nat (n - 1))) in Hloop by lia.
  destruct (attemptLoop_first_request w hotel (Num n) (Z.to_nat (n - 1)) 0 ∅
              [Called (PoolExecute (Db.SelectAll [VStr (Hotel.hotel_uuid hotel)]))])
    as [rest Hrest].
  { simpl. apply Z.ltb_lt. lia. }
  { discriminate. }
  rewrite Hloop, askFor_empty in Hrest. simpl in Hrest. subst ev.
  assert (existingOf w hotel = Some row) as -> by (unfold existingOf; by rewrite Hrow).
  destruct (afterLoop_looks_up w hotel row acc
              (Called (PoolExecute (Db.SelectAll [VStr (Hotel.hotel_uuid hotel)]))
               :: Called (DataCompletion (Hotel.name hotel) MD_ALL_FIELDS true) :: rest))
    as [ev' ->].
  cbn [snd]. eexists. split; [reflexivity|].
  apply elem_of_app. right. left.
Qed.

(** C9. When a persisted record was read but the id lookup after the loop
    yields 0 (the query failed, found no row, or found id 0), the cycle
    sends the lookup and then neither an INSERT nor an UPDATE, and returns
    normally: what was accumulated is dropped. *)
Theorem C9_zero_lookup_drops_the_data (w : world)
    (SCRAPE_MAX_TRY : option string) (hotel : Hotel.t)
    (row : object) (rows : list object) :
  w _ [] (PoolExecute (Db.SelectAll [VStr (Hotel.hotel_uuid hotel)]))
  = Returned (row :: rows) →
  (∀ ev, forallb loopEvent ev = true →
         (getIdByUuid (VStr (Hotel.hotel_uuid hotel)) w
            (Called (PoolExecute (Db.SelectAll [VStr (Hotel.hotel_uuid hotel)])) :: ev)).1
         = Returned 0) →
  (run w (processHotelWithRetry SCRAPE_MAX_TRY hotel)).1 = Returned tt
  ∧ forallb (λ e, negb (isWrite e))
      (run w (processHotelWithRetry SCRAPE_MAX_TRY hotel)).2 = true
  ∧ Called (PoolExecute (Db.SelectId [VStr (Hotel.hotel_uuid hotel)]))
    ∈ (run w (processHotelWithRetry SCRAPE_MAX_TRY hotel)).2.
Proof.
  intros Hrow Hzero.
  destruct (processHotelWithRetry_run w hotel SCRAPE_MAX_TRY)
    as (acc & attempt & ev & _ & Hev & ->).
  assert (existingOf w hotel = Some row) as -> by (unfold existingOf; by rewrite Hrow).
  rewrite afterLoop_run, saveToDatabase_update, (Hzero ev Hev).
  change (0 >? 0) with false. cbn [fst snd]. split_and!.
  - done.
  - cbn [forallb isWrite negb andb]. rewrite forallb_app.
    by rewrite (loopEvent_not_write _ Hev).
  - right. apply elem_of_app. right. left.
Qed.

(** When the fetch of the final attempt fails, the loop ends without
    throwing and hands over the accumulator unchanged; what follows is
    [afterLoop] on that accumulator. *)
Lemma final_attempt_failure_keeps_accumulator (w : world)
    (hotel : Hotel.t) (existingData : option object) (n : Z) (acc : object)
    (fuel : nat) (h : list event) (e : Error) :
  getEmptyFields (Some acc) allFieldNames ≠ [] →
  (AIService.fetchHotelData (Hotel.name hotel)
     (Some (getEmptyFields (Some acc) allFieldNames)) w h).1 = Threw e →
  attemptLoop (S fuel) hotel (Num n) (n - 1) acc w h
  = (Returned (acc, n), [Called (askFor hotel acc)])
  ∧ retryThenSave (S fuel) hotel (Num n) existingData (n - 1) acc w h
    = ((afterLoop hotel existingData acc w (h ++ [Called (askFor hotel acc)])).1,
       Called (askFor hotel acc)
       :: (afterLoop hotel existingData acc w (h ++ [Called (askFor hotel acc)])).2).
Proof.
  intros Hne Hfail.
  assert (attemptLoop (S fuel) hotel (Num n) (n - 1) acc w h
          = (Returned (acc, n), [Called (askFor hotel acc)])) as Hloop.
  { simpl. rewrite (proj2 (Z.ltb_lt (n - 1) n)) by lia.
    replace (n - 1 + 1) with n by lia.
    unfold bind. rewrite attemptBody_run.
    rewrite fetchHotelData_run in Hfail.
    pose proof (fieldsFor_emptyFields acc Hne) as Hfields.
    destruct (AIService.fieldsFor _) as [|f fs] eqn:Hf; [done|].
    destruct (getEmptyFields (Some acc) allFieldNames) as [|m ms] eqn:He; [done|].
    cbv zeta in Hfail. cbn [fst] in Hfail.
    unfold askFor in *. rewrite He, Hf in *.
    assert (ge n (Num n) = true) as Hge by (simpl; apply Z.geb_le; lia).
    destruct (w _ h _) as [[|newData rest]|e']; [|done|]; by rewrite Hge. }
  split; [done|].
  unfold retryThenSave, bind. rewrite Hloop.
  by destruct (afterLoop hotel existingData acc w _).
Qed.

(** For comparison, the final attempt when the fetch succeeds: the same
    [afterLoop], on the merged accumulator. *)
Lemma final_attempt_success_runs_afterLoop (w : world) (hotel : Hotel.t)
    (existingData : option object) (n : Z) (acc : object) (fuel : nat)
    (h : list event) (newData : object) (others : list object) :
  getEmptyFields (Some acc) allFieldNames ≠ [] →
  w _ h (askFor hotel acc) = Returned (newData :: others) →
  retryThenSave (S fuel) hotel (Num n) existingData (n - 1) acc w h
  = ((afterLoop hotel existingData (mergeDataSafely acc newData) w
        (h ++ [Called (askFor hotel acc)])).1,
     Called (askFor hotel acc)
     :: (afterLoop hotel existingData (mergeDataSafely acc newData) w
           (h ++ [Called (askFor hotel acc)])).2).
Proof.
  intros Hne Hw.
  assert (attemptLoop (S fuel) hotel (Num n) (n - 1) acc w h
          = (Returned (mergeDataSafely acc newData, n), [Called (askFor hotel acc)]))
    as Hloop.
  { simpl. rewrite (proj2 (Z.ltb_lt (n - 1) n)) by lia.
    replace (n - 1 + 1) with n by lia.
    unfold bind. rewrite attemptBody_run, Hw.
    destruct (getEmptyFields (Some acc) allFieldNames) as [|m ms]; [done|].
    cbv zeta.
    destruct (getEmptyFields (Some (mergeDataSafely acc newData)) allFieldNames).
    - done.
    - assert (lt n (Num n) = false) as Hlt by (simpl; apply Z.ltb_ge; lia).
      rewrite Hlt.
      assert (∀ h', attemptLoop fuel hotel (Num n) n (mergeDataSafely acc newData) w h'
                    = (Returned (mergeDataSafely acc newData, n), [])) as ->.
      { intros h'. destruct fuel; [done|]. simpl in *. by rewrite Hlt. }
      done. }
  unfold retryThenSave, bind. rewrite Hloop.
  by destruct (afterLoop hotel existingData _ w _).
Qed.

(** * Further properties of the code *)

(** ** The algebra of [mergeDataSafely] *)


(** X2. A result that brings nothing (no key, or only empty values) leaves
    the accumulator as it is, and merging the same result a second time
    changes nothing. *)
Theorem mergeDataSafely_nothing_new (A B : object) :
  mergeDataSafely A ∅ = A
  ∧ (if bool_decide (map_Forall (λ _ v, isEmpty v = true) B)
     then mergeDataSafely A B = A else True)
  ∧ mergeDataSafely (mergeDataSafely A B) B = mergeDataSafely A B.
Proof.
  split_and!.
  - reflexivity.
  - case_bool_decide as HB; [|done].
    apply map_eq. intros k. rewrite lookup_mergeDataSafely.
    destruct (B !! k) as [v|] eqn:Hk; [|done]. by rewrite (HB k v Hk).
  - apply map_eq. intros k. rewrite !lookup_mergeDataSafely.
    destruct (B !! k) as [v|]; [|done]. by destruct (isEmpty v).
Qed.


Lemma filled_mergeDataSafely (A B : object) :
  filled A → filled (mergeDataSafely A B).
Proof.
  intros HA k v. rewrite lookup_mergeDataSafely.
  destruct (B !! k) as [b|] eqn:Hb.
  - destruct (isEmpty b) eqn:He; [apply HA|]. by intros [= <-].
  - apply HA.
Qed.

(** ** The algebra of [filterValidFields] *)

(** X4. Filtering keeps a part of the record, filtering twice is filtering
    once, and filtering a merge is merging the filtered records. *)
Theorem filterValidFields_algebra (data A B : object) :
  filterValidFields data ⊆ data
  ∧ filterValidFields (filterValidFields data) = filterValidFields data
  ∧ filterValidFields (mergeDataSafely A B)
    = mergeDataSafely (filterValidFields A) (filterValidFields B).
Proof.
  split_and!.
  - apply map_subseteq_spec. intros k v. rewrite lookup_filterValidFields.
    by destruct (validColumn k).
  - apply map_eq. intros k. rewrite !lookup_filterValidFields.
    by destruct (validColumn k).
  - apply map_eq. intros k.
    rewrite lookup_filterValidFields, !lookup_mergeDataSafely,
      !lookup_filterValidFields.
    by destruct (validColumn k).
Qed.

(** ** Boolean conversion *)

Lemma convertBooleanString_triState (s : string) :
  triState (convertBooleanString s) = true.
Proof.
  unfold convertBooleanString.
  repeat match goal with |- context [if ?b then _ else _] => destruct b end; done.
Qed.

Lemma convertBooleanValue_triState (v : value) :
  triState (convertBooleanValue v) = true.
Proof.
  destruct v as [| |[]|z|s|a]; simpl; try done.
  - destruct (z =? 0); [done|]. by destruct (z =? 1).
  - apply convertBooleanString_triState.
Qed.

Lemma convertBooleanValue_idem (v : value) :
  convertBooleanValue (convertBooleanValue v) = convertBooleanValue v.
Proof.
  pose proof (convertBooleanValue_triState v) as H.
  destruct (convertBooleanValue v) as [| |b|z|s|a]; try done.
  destruct z as [|[p|p|]|p]; simpl in H; done.
Qed.

Lemma elem_of_snoc_bool (k key : string) (ks : list string) :
  bool_decide (k ∈ ks ++ [key]) = bool_decide (k ∈ ks) || bool_decide (k = key).
Proof.
  apply eq_true_iff_eq.
  rewrite orb_true_iff, !bool_decide_eq_true, elem_of_app, list_elem_of_singleton.
  done.
Qed.

Lemma lookup_convertBooleanValuesFor (booleanKeys : list string) (data : object)
    (k : string) :
  convertBooleanValuesFor booleanKeys data !! k
  = if bool_decide (k ∈ booleanKeys)
    then match data !! k with
         | Some v => Some (convertBooleanValue v)
         | None => if bool_decide (k ∈ objectPrototype) then Some VNull else None
         end
    else data !! k.
Proof.
  unfold convertBooleanValuesFor.
  induction booleanKeys as [|key ks IH] using rev_ind; [done|].
  rewrite foldl_app, elem_of_snoc_bool. cbn [foldl].
  set (prev := foldl _ data ks) in *. clearbody prev.
  unfold has, set.
  destruct (decide (k = key)) as [->|Hne].
  - rewrite (bool_decide_eq_true_2 (key = key)) by done. rewrite orb_true_r.
    destruct (data !! key) as [v|] eqn:Hkey.
    + rewrite (bool_decide_eq_true_2 (is_Some (Some v))) by eauto. simpl.
      rewrite lookup_insert_eq. unfold read. rewrite IH.
      destruct (bool_decide (key ∈ ks)); [|done].
      by rewrite convertBooleanValue_idem.
    + rewrite (bool_decide_eq_false_2 (is_Some None)) by (by intros [? ?]).
      rewrite orb_false_l.
      rewrite <- (bool_decide_ext _ _ (inherited_Some_elem key)).
      destruct (decide (key ∈ objectPrototype)) as [Hin|Hnin].
      * rewrite !(bool_decide_eq_true_2 _ Hin) in *. simpl.
        rewrite lookup_insert_eq. unfold read. rewrite IH.
        destruct (bool_decide (key ∈ ks)); [done|].
        apply inherited_Some_elem in Hin as [u Hu]. rewrite Hu.
        unfold inherited in Hu.
        destruct (position key objectPrototype); [|done].
        simpl in Hu. by injection Hu as <-.
      * rewrite !(bool_decide_eq_false_2 _ Hnin) in *. simpl. rewrite IH.
        by destruct (bool_decide (key ∈ ks)).
  - rewrite (bool_decide_eq_false_2 (k = key)) by done. rewrite orb_false_r.
    destruct (negb _); [done|]. by rewrite lookup_insert_ne.
Qed.


(** ** What is asked of the completion service *)

Lemma map_name_filter (names : list string) (fields : list FieldDescriptor) :
  List.map name (List.filter (λ f, bool_decide (name f ∈ names)) fields)
  = List.filter (λ n, bool_decide (n ∈ names)) (List.map name fields).
Proof.
  induction fields as [|f fs IH]; [reflexivity|].
  cbn [List.filter List.map].
  destruct (bool_decide (name f ∈ names)); cbn [List.map]; by rewrite IH.
Qed.

Lemma fieldsFor_names (names : list string) :
  List.map name (AIService.fieldsFor (Some names))
  = List.filter (λ n, bool_decide (n ∈ names)) allFieldNames.
Proof. apply map_name_filter. Qed.

Lemma filter_mem_filter (P : string → bool) (F G : list string) :
  G ⊆ F →
  List.filter (λ n, bool_decide (n ∈ List.filter P F)) G = List.filter P G.
Proof.
  induction G as [|n G IH]; intros Hsub; simpl; [done|].
  assert (bool_decide (n ∈ List.filter P F) = P n) as ->.
  { apply eq_true_iff_eq.
    rewrite bool_decide_eq_true, list_elem_of_In, filter_In, <- list_elem_of_In.
    split; [tauto|]. intros HP. split; [|done]. apply Hsub. left. }
  rewrite IH; [done|]. intros m Hm. apply Hsub. by right.
Qed.

(** X6. The fields a request names are the schema's fields whose name is
    in the array passed, in schema order (unknown names are dropped);
    for the empty fields of an accumulator these are exactly the empty
    fields. *)
Theorem request_names_the_empty_fields (names : list string) (acc : object) :
  List.map name (AIService.fieldsFor (Some names))
  = List.filter (λ n, bool_decide (n ∈ names)) allFieldNames
  ∧ List.map name
      (AIService.fieldsFor (Some (getEmptyFields (Some acc) allFieldNames)))
    = getEmptyFields (Some acc) allFieldNames.
Proof.
  split; [apply fieldsFor_names|].
  rewrite fieldsFor_names. unfold getEmptyFields.
  apply filter_mem_filter. intros n Hn. exact Hn.
Qed.

Lemma fieldsFor_nil_iff (names : list string) :
  AIService.fieldsFor (Some names) = []
  ↔ forallb (λ n, negb (bool_decide (n ∈ allFieldNames))) names = true.
Proof.
  rewrite forallb_forall. split.
  - intros Hnil n Hn. apply negb_true_iff, bool_decide_eq_false. intros Hall.
    apply list_elem_of_In in Hn.
    exact (fieldsFor_nonempty names n Hn Hall Hnil).
  - intros Hnone.
    destruct (AIService.fieldsFor (Some names)) as [|f fs] eqn:Hf; [reflexivity|].
    exfalso.
    assert (In f (AIService.fieldsFor (Some names))) as Hin by (rewrite Hf; left; reflexivity).
    apply filter_In in Hin as [Hin Hmem]. apply bool_decide_eq_true in Hmem.
    apply list_elem_of_In in Hmem. specialize (Hnone _ Hmem).
    apply negb_true_iff, bool_decide_eq_false in Hnone. apply Hnone.
    unfold allFieldNames. apply list_elem_of_In, in_map, Hin.
Qed.

(** X7. [fetchHotelData] with an array that names no field of the schema
    (the empty array included) throws "No fields to fetch" without calling
    the service; otherwise it makes exactly one call, for the fields
    named, and returns the first extracted object, throws "No JSON found
    in response" when nothing was extracted, or rethrows the service's
    error. *)
Theorem fetchHotelData_contract (w : world) (h : list event) (hotelName : string)
    (names : list string) :
  AIService.fetchHotelData hotelName (Some names) w h
  = if forallb (λ n, negb (bool_decide (n ∈ allFieldNames))) names
    then (Threw {| message := "No fields to fetch" |}, [])
    else
      let ask := DataCompletion hotelName (AIService.fieldsFor (Some names)) true in
      (match w _ h ask with
       | Returned [] => Threw {| message := "No JSON found in response" |}
       | Returned (parsedJson :: _) => Returned parsedJson
       | Threw e => Threw e
       end,
       [Called ask]).
Proof.
  rewrite fetchHotelData_run.
  destruct (forallb _ names) eqn:Hnone.
  - apply fieldsFor_nil_iff in Hnone. by rewrite Hnone.
  - destruct (AIService.fieldsFor (Some names)) as [|f fs] eqn:Hf; [|done].
    apply fieldsFor_nil_iff in Hf. congruence.
Qed.

(** ** The retry budget *)

Lemma fetchCalls_app (a b : list event) :
  fetchCalls (a ++ b) = (fetchCalls a + fetchCalls b)%nat.
Proof. unfold fetchCalls. by rewrite List.filter_app, length_app. Qed.

Lemma attemptBody_fetches_once (w : world) (hotel : Hotel.t) (maxAttempts : number)
    (attempt : Z) (acc : object) (h : list event) :
  (fetchCalls (attemptBody hotel maxAttempts attempt acc w h).2 ≤ 1)%nat.
Proof.
  rewrite attemptBody_run. unfold fetchCalls, askFor.
  destruct (getEmptyFields (Some acc) allFieldNames); [cbn; lia|].
  destruct (w _ h _) as [[|newData rest]|e]; cbv zeta.
  - destruct (ge attempt maxAttempts); cbn; lia.
  - destruct (getEmptyFields _ allFieldNames); [cbn; lia|].
    destruct (lt attempt maxAttempts); cbn; lia.
  - destruct (ge attempt maxAttempts); cbn; lia.
Qed.

Lemma attemptLoop_fetch_bound (w : world) (hotel : Hotel.t) (maxAttempts : number)
    (fuel : nat) (attempt : Z) (acc : object) (h : list event) :
  (fetchCalls (attemptLoop fuel hotel maxAttempts attempt acc w h).2
   ≤ passes maxAttempts attempt)%nat.
Proof.
  revert attempt acc h. induction fuel as [|fuel IH]; intros attempt acc h.
  - cbn. lia.
  - simpl. destruct (lt attempt maxAttempts) eqn:Hlt; [|cbn; lia].
    destruct maxAttempts as [|n]; [done|]. simpl in Hlt. apply Z.ltb_lt in Hlt.
    pose proof (attemptBody_fetches_once w hotel (Num n) (attempt + 1) acc h) as Hbody.
    unfold bind.
    destruct (attemptBody hotel (Num n) (attempt + 1) acc w h)
      as [[[ctl acc1]|e] ev1]; [|simpl in *; lia].
    simpl in Hbody. destruct ctl.
    + unfold ret. cbn [snd]. rewrite app_nil_r. simpl. lia.
    + specialize (IH (attempt + 1) acc1 (h ++ ev1)).
      destruct (attemptLoop fuel hotel (Num n) (attempt + 1) acc1 w (h ++ ev1))
        as [o ev2].
      cbn [snd] in *. rewrite fetchCalls_app. simpl in *. lia.
Qed.

Lemma afterLoop_fetches_nothing (w : world) (hotel : Hotel.t)
    (existingData : option object) (acc : object) (h : list event) :
  fetchCalls (afterLoop hotel existingData acc w h).2 = 0%nat.
Proof.
  rewrite afterLoop_run.
  assert (fetchCalls (saveToDatabase hotel existingData acc w h).2 = 0%nat) as Hsave.
  { destruct existingData as [row|].
    - rewrite saveToDatabase_update.
      destruct (getIdByUuid _ w h).1 as [existingId|e]; [|done].
      destruct (existingId >? 0); [|done].
      cbn [snd]. rewrite updateMarketData_run.
      by destruct (keys (filterValidFields (delete "hotel_uuid" acc))).
    - rewrite saveToDatabase_insert. rewrite insertMarketData_run.
      by destruct (keys (filterValidFields _)). }
  destruct (saveToDatabase hotel existingData acc w h) as [[[]|e] ev];
    cbn [snd] in *; [|done].
  rewrite fetchCalls_app, Hsave. done.
Qed.

(** X8. The retry budget holds: when [SCRAPE_MAX_TRY] gives a number [n]
    (then [n ≥ 1]), a processing cycle sends at least one and at most [n]
    requests to the completion service; when it does not parse ([NaN]),
    the loop is not entered and the cycle sends none. *)
Theorem fetches_within_budget (w : world) (SCRAPE_MAX_TRY : option string)
    (hotel : Hotel.t) :
  match maxAttemptsOf SCRAPE_MAX_TRY with
  | Num n =>
      1 ≤ n
      ∧ (1 ≤ fetchCalls (run w (processHotelWithRetry SCRAPE_MAX_TRY hotel)).2
         ≤ Z.to_nat n)%nat
  | NaN =>
      fetchCalls (run w (processHotelWithRetry SCRAPE_MAX_TRY hotel)).2 = 0%nat
  end.
Proof.
  destruct (processHotelWithRetry_run w hotel SCRAPE_MAX_TRY)
    as (acc & attempt & ev & Hloop & _ & ->).
  cbn [snd]. change (?e :: ev ++ ?l) with ([e] ++ ev ++ l).
  rewrite !fetchCalls_app, afterLoop_fetches_nothing.
  change (fetchCalls [_]) with 0%nat.
  pose proof (attemptLoop_fetch_bound w hotel (maxAttemptsOf SCRAPE_MAX_TRY)
                (passes (maxAttemptsOf SCRAPE_MAX_TRY) 0) 0 ∅
                [Called (PoolExecute (Db.SelectAll [VStr (Hotel.hotel_uuid hotel)]))])
    as Hbound.
  rewrite Hloop in Hbound. cbn [snd] in Hbound.
  destruct (maxAttemptsOf SCRAPE_MAX_TRY) as [|n] eqn:Hmax.
  - simpl in Hbound. lia.
  - pose proof (maxAttemptsOf_floor _ _ Hmax) as Hn. split; [done|].
    simpl passes in *. replace (n - 0) with n in * by lia. split; [|lia].
    replace (Z.to_nat n) with (S (Z.to_nat (n - 1))) in Hloop by lia.
    destruct (attemptLoop_first_request w hotel (Num n) (Z.to_nat (n - 1)) 0 ∅
                [Called (PoolExecute (Db.SelectAll [VStr (Hotel.hotel_uuid hotel)]))])
      as [rest Hrest].
    { simpl. apply Z.ltb_lt. lia. }
    { discriminate. }
    rewrite Hloop in Hrest. cbn [snd] in Hrest. subst ev.
    change (Called (askFor hotel ∅) :: rest) with ([Called (askFor hotel ∅)] ++ rest).
    rewrite fetchCalls_app. change (fetchCalls [Called (askFor hotel ∅)]) with 1%nat.
    lia.
Qed.

(** ** The pace of the retry loop *)

Lemma attemptLoop_over (w : world) (hotel : Hotel.t) (maxAttempts : number)
    (fuel : nat) (attempt : Z) (acc : object) (h : list event) :
  lt attempt maxAttempts = false →
  attemptLoop fuel hotel maxAttempts attempt acc w h = (Returned (acc, attempt), []).
Proof. intros Hlt. destruct fuel; [done|]. simpl. by rewrite Hlt. Qed.

Lemma attemptLoop_shape (w : world) (hotel : Hotel.t) (maxAttempts : number)
    (fuel : nat) (attempt : Z) (acc : object) (h : list event) :
  (passes maxAttempts attempt ≤ fuel)%nat →
  attemptsShape (attemptLoop fuel hotel maxAttempts attempt acc w h).2 = true.
Proof.
  revert attempt acc h. induction fuel as [|fuel IH]; intros attempt acc h Hfuel.
  { done. }
  simpl. destruct (lt attempt maxAttempts) eqn:Hlt; [|done].
  destruct maxAttempts as [|n]; [done|].
  simpl in Hlt. apply Z.ltb_lt in Hlt. simpl in Hfuel.
  assert (passes (Num n) (attempt + 1) ≤ fuel)%nat as Hnext by (simpl; lia).
  unfold bind. rewrite attemptBody_run.
  (* after a wait the loop goes on with a request *)
  assert (∀ acc1 h1, getEmptyFields (Some acc1) allFieldNames ≠ [] →
            attempt + 1 < n →
            ∃ rest, (attemptLoop fuel hotel (Num n) (attempt + 1) acc1 w h1).2
                    = Called (askFor hotel acc1) :: rest
                    ∧ attemptsShape (Called (askFor hotel acc1) :: rest) = true)
    as Hgoes.
  { intros acc1 h1 Hne Hlt1. destruct fuel as [|fuel']; [simpl in Hnext; lia|].
    destruct (attemptLoop_first_request w hotel (Num n) fuel' (attempt + 1) acc1 h1)
      as [rest Hrest]; [by apply Z.ltb_lt|done|].
    exists rest. split; [done|]. rewrite <- Hrest. by apply IH. }
  destruct (getEmptyFields (Some acc) allFieldNames) as [|m ms] eqn:He; [done|].
  destruct (w _ h (askFor hotel acc)) as [[|newData others]|e]; cbv zeta.
  - simpl ge. destruct (attempt + 1 >=? n) eqn:Hge; [done|].
    destruct (Hgoes acc (h ++ [Called (askFor hotel acc); Waited 5000]))
      as (rest & Hrest & Hshape); [by rewrite He|lia|].
    destruct (attemptLoop fuel hotel (Num n) (attempt + 1) acc w _) as [o ev2].
    cbn [snd] in *. subst ev2. simpl app.
    change (attemptsShape (Called (askFor hotel acc) :: Waited 5000 :: ?l))
      with (true && (true && attemptsShape l)) in |- *.
    done.
  - destruct (getEmptyFields (Some (mergeDataSafely acc newData)) allFieldNames)
      as [|r rs] eqn:Hr; [done|].
    simpl lt. destruct (attempt + 1 <? n) eqn:Hlt1.
    + destruct (Hgoes (mergeDataSafely acc newData)
                  (h ++ [Called (askFor hotel acc); Waited 5000]))
        as (rest & Hrest & Hshape); [by rewrite Hr|by apply Z.ltb_lt|].
      destruct (attemptLoop fuel hotel (Num n) (attempt + 1) _ w _) as [o ev2].
      cbn [snd] in *. subst ev2. simpl app.
      change (attemptsShape (Called (askFor hotel acc) :: Waited 5000 :: ?l))
        with (true && (true && attemptsShape l)) in |- *.
      done.
    + rewrite attemptLoop_over by done. done.
  - simpl ge. destruct (attempt + 1 >=? n) eqn:Hge; [done|].
    destruct (Hgoes acc (h ++ [Called (askFor hotel acc); Waited 5000]))
      as (rest & Hrest & Hshape); [by rewrite He|lia|].
    destruct (attemptLoop fuel hotel (Num n) (attempt + 1) acc w _) as [o ev2].
    cbn [snd] in *. subst ev2. simpl app.
    change (attemptsShape (Called (askFor hotel acc) :: Waited 5000 :: ?l))
      with (true && (true && attemptsShape l)) in |- *.
    done.
Qed.

(** The ways [afterLoop] can go: lookup and possibly an UPDATE, or an
    INSERT, each answered or failed. *)
Ltac afterLoop_cases w acc :=
  rewrite afterLoop_run;
  match goal with
  | |- context [saveToDatabase _ ?existingData _ _ _] =>
      destruct existingData as [?row|]
  end;
  [ rewrite saveToDatabase_update, getIdByUuid_run; cbn [fst];
    match goal with |- context [?id >? 0] => destruct (id >? 0) end;
    [ rewrite updateMarketData_run;
      destruct (keys (filterValidFields (delete "hotel_uuid" acc)));
      [| destruct (w _ _ (PoolExecute (updateStatement _ acc)))]
    | ]
  | rewrite saveToDatabase_insert, insertMarketData_run;
    destruct (keys (filterValidFields _));
    [| destruct (w _ _ (PoolExecute (insertStatement _)))] ];
  cbn.

Lemma afterLoop_no_loop_event (w : world) (hotel : Hotel.t)
    (existingData : option object) (acc : object) (h : list event) :
  forallb (λ e, negb (loopEvent e)) (afterLoop hotel existingData acc w h).2 = true.
Proof. afterLoop_cases w acc; done. Qed.

Lemma afterLoop_one_write (w : world) (hotel : Hotel.t)
    (existingData : option object) (acc : object) (h : list event) :
  (length (List.filter isWrite (afterLoop hotel existingData acc w h).2) ≤ 1)%nat.
Proof. afterLoop_cases w acc; lia. Qed.

(** X9. The history of a processing cycle is: the read of the persisted
    record; then the retry loop's requests, each separated from the next
    by one wait of 5000 ms, with no wait before the first or after the
    last; then the saving part, in which no request and no wait occurs. *)
Theorem waits_only_between_requests (w : world) (SCRAPE_MAX_TRY : option string)
    (hotel : Hotel.t) :
  ∃ attempts saving,
    (run w (processHotelWithRetry SCRAPE_MAX_TRY hotel)).2
    = Called (PoolExecute (Db.SelectAll [VStr (Hotel.hotel_uuid hotel)]))
      :: attempts ++ saving
    ∧ attemptsShape attempts = true
    ∧ forallb (λ e, negb (loopEvent e)) saving = true.
Proof.
  destruct (processHotelWithRetry_run w hotel SCRAPE_MAX_TRY)
    as (acc & attempt & ev & Hloop & _ & ->).
  exists ev, (afterLoop hotel (existingOf w hotel) acc w
                (Called (PoolExecute (Db.SelectAll [VStr (Hotel.hotel_uuid hotel)]))
                 :: ev)).2.
  split_and!.
  - done.
  - pose proof (attemptLoop_shape w hotel (maxAttemptsOf SCRAPE_MAX_TRY)
                  (passes (maxAttemptsOf SCRAPE_MAX_TRY) 0) 0 ∅
                  [Called (PoolExecute (Db.SelectAll [VStr (Hotel.hotel_uuid hotel)]))])
      as Hshape.
    rewrite Hloop in Hshape. by apply Hshape.
  - apply afterLoop_no_loop_event.
Qed.

(** X10. A processing cycle writes at most once, and only after its last
    request: the history splits into a part without any write and a part
    without any request that holds at most one INSERT or UPDATE. *)
Theorem one_write_after_the_requests (w : world) (SCRAPE_MAX_TRY : option string)
    (hotel : Hotel.t) :
  (length (List.filter isWrite
             (run w (processHotelWithRetry SCRAPE_MAX_TRY hotel)).2) ≤ 1)%nat
  ∧ ∃ before saving,
      (run w (processHotelWithRetry SCRAPE_MAX_TRY hotel)).2 = before ++ saving
      ∧ forallb (λ e, negb (isWrite e)) before = true
      ∧ fetchCalls saving = 0%nat.
Proof.
  destruct (processHotelWithRetry_run w hotel SCRAPE_MAX_TRY)
    as (acc & attempt & ev & _ & Hev & ->).
  cbn [snd].
  pose proof (loopEvent_not_write _ Hev) as Hnw.
  split.
  - change (?e :: ev ++ ?l) with ([e] ++ ev ++ l).
    rewrite !List.filter_app, !length_app.
    pose proof (afterLoop_one_write w hotel (existingOf w hotel) acc
                  (Called (PoolExecute (Db.SelectAll [VStr (Hotel.hotel_uuid hotel)]))
                   :: ev)) as Hone.
    assert (List.filter isWrite ev = []) as ->.
    { clear -Hnw. induction ev as [|e ev IH]; [done|].
      simpl in *. apply andb_true_iff in Hnw as [He Hev].
      apply negb_true_iff in He. rewrite He. by apply IH. }
    simpl. lia.
  - exists (Called (PoolExecute (Db.SelectAll [VStr (Hotel.hotel_uuid hotel)])) :: ev),
      (afterLoop hotel (existingOf w hotel) acc w
         (Called (PoolExecute (Db.SelectAll [VStr (Hotel.hotel_uuid hotel)]))
          :: ev)).2.
    split_and!; [done|by simpl|apply afterLoop_fetches_nothing].
Qed.

(** ** Empty values never reach the table *)

Lemma attemptBody_filled (w : world) (hotel : Hotel.t) (maxAttempts : number)
    (attempt : Z) (acc : object) (h : list event) (ctl : control) (acc1 : object) :
  filled acc →
  (attemptBody hotel maxAttempts attempt acc w h).1 = Returned (ctl, acc1) →
  filled acc1.
Proof.
  intros Hacc. rewrite attemptBody_run.
  destruct (getEmptyFields (Some acc) allFieldNames); [by intros [= _ <-]|].
  destruct (w _ h (askFor hotel acc)) as [[|newData others]|e]; cbv zeta.
  - destruct (ge _ _); by intros [= _ <-].
  - pose proof (filled_mergeDataSafely acc newData Hacc).
    destruct (getEmptyFields _ allFieldNames); [by intros [= _ <-]|].
    destruct (lt attempt maxAttempts); by intros [= _ <-].
  - destruct (ge _ _); by intros [= _ <-].
Qed.

Lemma attemptLoop_filled (w : world) (hotel : Hotel.t) (maxAttempts : number)
    (fuel : nat) (attempt : Z) (acc : object) (h : list event)
    (acc' : object) (attempt' : Z) :
  filled acc →
  (attemptLoop fuel hotel maxAttempts attempt acc w h).1 = Returned (acc', attempt') →
  filled acc'.
Proof.
  revert attempt acc h. induction fuel as [|fuel IH]; intros attempt acc h Hacc.
  { by intros [= <- _]. }
  simpl. destruct (lt attempt maxAttempts); [|by intros [= <- _]].
  unfold bind.
  pose proof (attemptBody_filled w hotel maxAttempts (attempt + 1) acc h) as Hbody.
  destruct (attemptBody hotel maxAttempts (attempt + 1) acc w h)
    as [[[ctl acc1]|e] ev1]; [|done].
  specialize (Hbody ctl acc1 Hacc eq_refl). destruct ctl.
  - by intros [= <- _].
  - specialize (IH (attempt + 1) acc1 (h ++ ev1) Hbody).
    by destruct (attemptLoop fuel hotel maxAttempts (attempt + 1) acc1 w (h ++ ev1)).
Qed.

Lemma nullish_filled (v : value) :
  isEmpty v = false → negb (isEmpty (nullish v VNull)) = true.
Proof. destruct v; simpl; try done. by intros ->. Qed.

Lemma combine_map_self {A B} (g : A → B) (l : list A) :
  combine l (List.map g l) = List.map (λ a, (a, g a)) l.
Proof. induction l as [|a l IH]; simpl; [done|]. by rewrite IH. Qed.

Lemma updateStatement_no_empty_value (id : Z) (acc : object) :
  filled acc →
  writesNoEmptyValue (Called (PoolExecute (updateStatement id acc))) = true.
Proof.
  intros Hacc. simpl. rewrite forallb_app. apply andb_true_iff. split; [|done].
  apply forallb_forall. intros v Hv. apply in_map_iff in Hv as [col [<- Hcol]].
  apply list_elem_of_In, elem_of_keys in Hcol as [x Hx].
  rewrite (get_Some _ _ _ Hx). apply nullish_filled.
  rewrite lookup_filterValidFields in Hx. destruct (validColumn col); [|done].
  apply lookup_delete_Some in Hx as [_ Hx]. by apply (Hacc col).
Qed.

Lemma insertStatement_no_empty_value (acc : object) (uuid : value) :
  filled acc →
  writesNoEmptyValue
    (Called (PoolExecute (insertStatement (set acc "hotel_uuid" uuid)))) = true.
Proof.
  intros Hacc. simpl. rewrite combine_map_self.
  apply forallb_forall. intros [col v] Hv. apply in_map_iff in Hv as [c [[= <- <-] Hcol]].
  simpl. destruct (String.eqb_spec c "hotel_uuid") as [->|Hne]; [done|]. simpl.
  apply list_elem_of_In, elem_of_keys in Hcol as [x Hx].
  rewrite (get_Some _ _ _ Hx). apply nullish_filled.
  rewrite lookup_filterValidFields in Hx. destruct (validColumn c); [|done].
  unfold set in Hx. rewrite lookup_insert_ne in Hx by done. by apply (Hacc c).
Qed.

(** X11. Empty values never reach the table: the accumulator the retry
    loop hands over holds no [null], [undefined], empty string or "N/A",
    so every parameter of the cycle's UPDATE, and every parameter of its
    INSERT other than the uuid, is a value that is not empty. *)
Theorem cycle_writes_no_empty_value (w : world) (SCRAPE_MAX_TRY : option string)
    (hotel : Hotel.t) :
  forallb writesNoEmptyValue
    (run w (processHotelWithRetry SCRAPE_MAX_TRY hotel)).2 = true.
Proof.
  destruct (processHotelWithRetry_run w hotel SCRAPE_MAX_TRY)
    as (acc & attempt & ev & Hloop & Hev & ->).
  assert (filled acc) as Hacc.
  { apply (attemptLoop_filled w hotel (maxAttemptsOf SCRAPE_MAX_TRY)
             (passes (maxAttemptsOf SCRAPE_MAX_TRY) 0) 0 ∅
             [Called (PoolExecute (Db.SelectAll [VStr (Hotel.hotel_uuid hotel)]))]
             acc attempt); [apply map_Forall_empty|].
    by rewrite Hloop. }
  cbn [snd]. change (?e :: ev ++ ?l) with ([e] ++ ev ++ l).
  rewrite !forallb_app.
  assert (forallb writesNoEmptyValue ev = true) as ->.
  { clear -Hev. apply forallb_forall. intros e He.
    rewrite forallb_forall in Hev. specialize (Hev e He).
    destruct e as [R c|ms]; [|done]. by destruct c. }
  change (forallb writesNoEmptyValue [_]) with true. cbn [andb].
  - pose proof (updateStatement_no_empty_value) as Hupd.
    pose proof (insertStatement_no_empty_value acc
                  (VStr (Hotel.hotel_uuid hotel)) Hacc) as Hins.
    rewrite afterLoop_run.
    destruct (existingOf w hotel) as [row|].
    + rewrite saveToDatabase_update, getIdByUuid_run. cbn [fst].
      match goal with |- context [?id >? 0] => destruct (id >? 0) eqn:Hid end;
        [|done].
      rewrite updateMarketData_run.
      destruct (keys (filterValidFields (delete "hotel_uuid" acc))) eqn:Hk; [done|].
      match goal with
      | |- context [updateStatement ?id acc] => specialize (Hupd id acc Hacc)
      end.
      destruct (w _ _ (PoolExecute (updateStatement _ acc)));
        cbn [fst snd finished forallb app]; by rewrite Hupd.
    + rewrite saveToDatabase_insert, insertMarketData_run.
      destruct (keys (filterValidFields _)) eqn:Hk; [done|].
      destruct (w _ _ (PoolExecute (insertStatement _)));
        cbn [fst snd finished forallb app]; by rewrite Hins.
Qed.

(** ** How a cycle ends *)

Lemma insert_columns_nonempty (acc : object) (uuid : value) :
  "hotel_uuid" ∈ keys (filterValidFields (set acc "hotel_uuid" uuid)).
Proof.
  apply elem_of_keys_filterValidFields. split; [done|].
  unfold set. rewrite lookup_insert_eq. by eexists.
Qed.

(** X12. A cycle throws only when its INSERT or UPDATE was refused by the
    database, and then it throws that very error, the refused statement
    being the last event; failed requests to the completion service and a
    failed FAQ request never make it throw.  When the cycle returns, the
    FAQ request is its last event. *)
Theorem cycle_throws_only_the_write_error (w : world)
    (SCRAPE_MAX_TRY : option string) (hotel : Hotel.t) :
  match (run w (processHotelWithRetry SCRAPE_MAX_TRY hotel)).1 with
  | Returned _ =>
      ∃ before,
        (run w (processHotelWithRetry SCRAPE_MAX_TRY hotel)).2
        = before ++ [Called (FaqCompletion (Hotel.name hotel))]
  | Threw e =>
      ∃ before (statement : Db.query Db.ResultSetHeader),
        (run w (processHotelWithRetry SCRAPE_MAX_TRY hotel)).2
        = before ++ [Called (PoolExecute statement)]
        ∧ isWrite (Called (PoolExecute statement)) = true
        ∧ w _ before (PoolExecute statement) = Threw e
  end.
Proof.
  destruct (processHotelWithRetry_run w hotel SCRAPE_MAX_TRY)
    as (acc & attempt & ev & _ & _ & ->).
  cbn [fst snd].
  set (read := Called (PoolExecute (Db.SelectAll [VStr (Hotel.hotel_uuid hotel)]))).
  rewrite afterLoop_run.
  destruct (existingOf w hotel) as [row|].
  - rewrite saveToDatabase_update, getIdByUuid_run. cbn [fst].
    match goal with |- context [?id >? 0] => destruct (id >? 0) end.
    + rewrite updateMarketData_run.
      destruct (keys (filterValidFields (delete "hotel_uuid" acc))).
      * cbn. eexists (read :: ev ++ [_]). by (simpl; rewrite <- ?app_assoc).
      * match goal with
        | |- context [w _ ?h (PoolExecute ?q)] =>
            destruct (w _ h (PoolExecute q)) as [result|e] eqn:Hw
        end; cbn.
        -- eexists (read :: ev ++ [_; _]). by (simpl; rewrite <- ?app_assoc).
        -- eexists ((read :: ev) ++ [_]), _.
           split; [simpl; rewrite <- app_assoc; reflexivity|].
           split; [reflexivity|exact Hw].
    + cbn. eexists (read :: ev ++ [_]). by (simpl; rewrite <- ?app_assoc).
  - rewrite saveToDatabase_insert, insertMarketData_run.
    pose proof (insert_columns_nonempty acc (VStr (Hotel.hotel_uuid hotel))) as Hin.
    destruct (keys (filterValidFields _)); [by apply elem_of_nil in Hin|].
    match goal with
    | |- context [w _ ?h (PoolExecute ?q)] =>
        destruct (w _ h (PoolExecute q)) as [result|e] eqn:Hw
    end; cbn.
    + eexists (read :: ev ++ [_]). by (simpl; rewrite <- ?app_assoc).
    + eexists (read :: ev), _.
      split; [reflexivity|]. split; [reflexivity|exact Hw].
Qed.

(** X13. When the initial read finds no record, or fails, the cycle sends
    exactly one INSERT after its requests; the INSERT has the column
    [hotel_uuid], bound to the hotel's uuid, whatever was accumulated (so
    it is never refused for lack of fields). *)
Theorem new_hotel_is_inserted_with_its_uuid (w : world)
    (SCRAPE_MAX_TRY : option string) (hotel : Hotel.t) :
  existingOf w hotel = None →
  ∃ attempts acc columns params tail (i : nat),
    (run w (processHotelWithRetry SCRAPE_MAX_TRY hotel)).2
    = Called (PoolExecute (Db.SelectAll [VStr (Hotel.hotel_uuid hotel)]))
      :: attempts ++ Called (PoolExecute (Db.InsertInto columns params)) :: tail
    ∧ forallb loopEvent attempts = true
    ∧ forallb (λ e, negb (isWrite e)) tail = true
    ∧ Db.InsertInto columns params
      = insertStatement (set acc "hotel_uuid" (VStr (Hotel.hotel_uuid hotel)))
    ∧ columns !! i = Some "hotel_uuid"
    ∧ params !! i = Some (VStr (Hotel.hotel_uuid hotel)).
Proof.
  intros Hnone.
  destruct (processHotelWithRetry_run w hotel SCRAPE_MAX_TRY)
    as (acc & attempt & ev & _ & Hev & ->).
  rewrite Hnone. cbn [snd].
  pose proof (insert_columns_nonempty acc (VStr (Hotel.hotel_uuid hotel))) as Hin.
  destruct (proj1 (list_elem_of_lookup _ _) Hin) as [i Hi].
  rewrite afterLoop_run, saveToDatabase_insert, insertMarketData_run.
  destruct (keys (filterValidFields _)) as [|c cs] eqn:Hk;
    [by apply elem_of_nil in Hin|].
  assert (∀ tail, forallb (λ e, negb (isWrite e)) tail = true →
            ∃ attempts acc0 columns params tail0 (j : nat),
              Called (PoolExecute (Db.SelectAll [VStr (Hotel.hotel_uuid hotel)]))
              :: ev ++ Called (PoolExecute
                          (insertStatement
                             (set acc "hotel_uuid" (VStr (Hotel.hotel_uuid hotel)))))
                       :: tail
              = Called (PoolExecute (Db.SelectAll [VStr (Hotel.hotel_uuid hotel)]))
                :: attempts ++ Called (PoolExecute (Db.InsertInto columns params))
                   :: tail0
              ∧ forallb loopEvent attempts = true
              ∧ forallb (λ e, negb (isWrite e)) tail0 = true
              ∧ Db.InsertInto columns params
                = insertStatement
                    (set acc0 "hotel_uuid" (VStr (Hotel.hotel_uuid hotel)))
              ∧ columns !! j = Some "hotel_uuid"
              ∧ params !! j = Some (VStr (Hotel.hotel_uuid hotel))) as Hgoal.
  { intros tail Htail.
    exists ev, acc, (c :: cs),
      (List.map (λ col, nullish (get (filterValidFields
                  (set acc "hotel_uuid" (VStr (Hotel.hotel_uuid hotel)))) col) VNull)
         (c :: cs)), tail, i.
    split_and!; try done.
    - unfold insertStatement. by rewrite Hk.
    - unfold insertStatement. by rewrite Hk.
    - change (List.map ?g ?l) with (g <$> l). rewrite list_lookup_fmap, Hi. simpl.
      assert (filterValidFields (set acc "hotel_uuid" (VStr (Hotel.hotel_uuid hotel)))
              !! "hotel_uuid" = Some (VStr (Hotel.hotel_uuid hotel))) as Hu.
      { rewrite lookup_filterValidFields. unfold set. by rewrite lookup_insert_eq. }
      by rewrite (get_Some _ _ _ Hu). }
  destruct (w _ _ (PoolExecute (insertStatement _))) as [result|e]; cbn.
  - by apply Hgoal.
  - by apply Hgoal.
Qed.

(** ** Upsert *)

Lemma upsertMarketData_run (w : world) (h : list event) (data : object)
    (hotelUuid : value) :
  upsertMarketData data hotelUuid w h =
  let lookup := Called (PoolExecute (Db.SelectId [hotelUuid])) in
  let existingId :=
    match w _ h (PoolExecute (Db.SelectId [hotelUuid])) with
    | Returned (result :: _) => Db.id result
    | Returned [] | Threw _ => 0
    end in
  if existingId >? 0 then
    (match (updateMarketData existingId data w (h ++ [lookup])).1 with
     | Returned affectedRows => Returned (ActionUpdate affectedRows existingId)
     | Threw e => Threw e
     end,
     lookup :: (updateMarketData existingId data w (h ++ [lookup])).2)
  else
    (match (insertMarketData (set data "hotel_uuid" hotelUuid) w (h ++ [lookup])).1 with
     | Returned insertId => Returned (ActionInsert insertId)
     | Threw e => Threw e
     end,
     lookup :: (insertMarketData (set data "hotel_uuid" hotelUuid) w (h ++ [lookup])).2).
Proof.
  unfold upsertMarketData, tryCatch at 1. unfold bind at 1.
  rewrite getIdByUuid_run. cbv zeta.
  destruct (_ >? 0).
  - unfold bind, ret, throw.
    destruct (updateMarketData _ data w _) as [[n|e] ev]; simpl;
      by rewrite ?app_nil_r.
  - unfold bind, ret, throw.
    destruct (insertMarketData _ w _) as [[n|e] ev]; simpl;
      by rewrite ?app_nil_r.
Qed.


(** ** The loop over the hotels *)

Lemma attemptsShape_cycleEvent (ev : list event) :
  attemptsShape ev = true → forallb cycleEvent ev = true.
Proof.
  assert (∀ n ev, (length ev ≤ n)%nat → attemptsShape ev = true →
                  forallb cycleEvent ev = true) as H.
  { clear ev. induction n as [|n IH]; intros ev Hlen Hshape.
    - by destruct ev; [|simpl in Hlen; lia].
    - destruct ev as [|e rest]; [done|].
      cbn [attemptsShape] in Hshape.
      apply andb_true_iff in Hshape as [He Hrest].
      assert (cycleEvent e = true) as Hc.
      { destruct e as [R c|ms]; [|done]. by destruct c. }
      destruct rest as [|e' rest']; [by cbn [forallb]; rewrite Hc|].
      destruct e' as [R c|ms]; [done|].
      apply andb_true_iff in Hrest as [Hms Hrest'].
      apply Z.eqb_eq in Hms. subst ms.
      destruct rest' as [|e'' rest'']; [done|].
      assert (forallb cycleEvent (e'' :: rest'') = true) as Hrec.
      { apply IH; [simpl in *; lia|done]. }
      change (forallb cycleEvent (e :: Waited 5000 :: e'' :: rest''))
        with (cycleEvent e && (true && forallb cycleEvent (e'' :: rest''))).
      by rewrite Hc, Hrec. }
  by apply (H (length ev)).
Qed.

Lemma afterLoop_cycleEvent (w : world) (hotel : Hotel.t)
    (existingData : option object) (acc : object) (h : list event) :
  forallb cycleEvent (afterLoop hotel existingData acc w h).2 = true.
Proof. afterLoop_cases w acc; done. Qed.

(** A cycle started at any point of a history: its read, then events that
    are neither reads nor pauses. *)
Lemma processHotelWithRetry_events (w : world) (SCRAPE_MAX_TRY : option string)
    (hotel : Hotel.t) (h : list event) :
  ∃ rest,
    (processHotelWithRetry SCRAPE_MAX_TRY hotel w h).2
    = Called (PoolExecute (Db.SelectAll [VStr (Hotel.hotel_uuid hotel)])) :: rest
    ∧ forallb cycleEvent rest = true.
Proof.
  unfold processHotelWithRetry. unfold bind at 1.
  rewrite getMarketDataByUuid_run. unfold retryThenSave, bind.
  set (read := Called (PoolExecute (Db.SelectAll [VStr (Hotel.hotel_uuid hotel)]))).
  set (maxAttempts := maxAttemptsOf SCRAPE_MAX_TRY).
  pose proof (attemptLoop_shape w hotel maxAttempts (passes maxAttempts 0) 0 ∅
                (h ++ [read])) as Hshape.
  destruct (attemptLoop_returns w hotel maxAttempts (passes maxAttempts 0) 0 ∅
              (h ++ [read])) as (acc & attempt & ev & Hloop & _).
  rewrite Hloop in *. cbn [snd] in Hshape.
  match goal with
  | |- context [afterLoop hotel ?existing acc w ?h'] =>
      pose proof (afterLoop_cycleEvent w hotel existing acc h') as Hafter;
      destruct (afterLoop hotel existing acc w h') as [o ev']
  end.
  cbn [snd] in *. eexists. split; [reflexivity|].
  rewrite forallb_app, Hafter, attemptsShape_cycleEvent; [done|]. by apply Hshape.
Qed.

Lemma cycleEvent_no_read (ev : list event) :
  forallb cycleEvent ev = true → omap readUuid ev = [] ∧ List.filter isPause ev = [].
Proof.
  induction ev as [|e ev IH]; [done|].
  intros H. cbn [forallb] in H. apply andb_true_iff in H as [He Hev].
  destruct (IH Hev) as [IH1 IH2].
  unfold cycleEvent in He. destruct (readUuid e) eqn:Hr; [done|].
  apply negb_true_iff in He. split.
  - change (omap readUuid (e :: ev))
      with (match readUuid e with
            | Some y => y :: omap readUuid ev
            | None => omap readUuid ev
            end).
    by rewrite Hr.
  - cbn [List.filter]. by rewrite He.
Qed.

Lemma processHotels_cons (w : world) (SCRAPE_MAX_TRY : option string)
    (hotel : Hotel.t) (remaining : list Hotel.t) (h : list event) :
  processHotels SCRAPE_MAX_TRY (hotel :: remaining) w h
  = let cycle := (processHotelWithRetry SCRAPE_MAX_TRY hotel w h).2 in
    match remaining with
    | [] => (Returned tt, cycle)
    | _ :: _ =>
        ((processHotels SCRAPE_MAX_TRY remaining w (h ++ cycle ++ [Waited 3000])).1,
         cycle ++ Waited 3000
         :: (processHotels SCRAPE_MAX_TRY remaining w (h ++ cycle ++ [Waited 3000])).2)
    end.
Proof.
  cbn [processHotels]. unfold bind at 1. unfold tryCatch.
  destruct (processHotelWithRetry SCRAPE_MAX_TRY hotel w h) as [[[]|e] cycle];
    cbn [snd]; unfold ret at 1; rewrite ?app_nil_r.
  - destruct remaining as [|next others].
    + unfold bind, ret. cbn. by rewrite !app_nil_r.
    + unfold bind at 1. unfold sleep at 1. rewrite <- app_assoc.
      by destruct (processHotels SCRAPE_MAX_TRY (next :: others) w _).
  - destruct remaining as [|next others].
    + unfold bind, ret. cbn. by rewrite !app_nil_r.
    + unfold bind at 1. unfold sleep at 1. rewrite <- app_assoc.
      by destruct (processHotels SCRAPE_MAX_TRY (next :: others) w _).
Qed.


(** X16. Saving in [processHotelWithRetry] against [upsertMarketData], for
    the same accumulator and uuid.  When a record was read and the lookup
    gives a positive id, both send the same statements.  When a record was
    read and the lookup gives 0, saving stops after the lookup, whereas
    the upsert goes on to the INSERT that saving sends for a hotel without
    record. *)
Theorem saving_versus_upsert (w : world) (hotel : Hotel.t) (row acc : object)
    (h : list event) :
  let uuid := VStr (Hotel.hotel_uuid hotel) in
  let lookup := Called (PoolExecute (Db.SelectId [uuid])) in
  let existingId :=
    match w _ h (PoolExecute (Db.SelectId [uuid])) with
    | Returned (result :: _) => Db.id result
    | Returned [] | Threw _ => 0
    end in
  if existingId >? 0 then
    (saveToDatabase hotel (Some row) acc w h).2 = (upsertMarketData acc uuid w h).2
  else
    saveToDatabase hotel (Some row) acc w h = (Returned tt, [lookup])
    ∧ (upsertMarketData acc uuid w h).2
      = lookup :: (saveToDatabase hotel None acc w (h ++ [lookup])).2.
Proof.
  cbv zeta. rewrite saveToDatabase_update, upsertMarketData_run, getIdByUuid_run.
  cbv zeta. cbn [fst]. destruct (_ >? 0); [done|].
  split; [done|]. by rewrite saveToDatabase_insert.
Qed.

(** ** Stopping early *)

(** X18. As soon as an answer leaves no field empty, the loop stops: from
    any state of the loop, a request whose answer fills every field that
    was still empty is the last event of the loop (no wait, no further
    request), and the merged accumulator is handed over. *)
Theorem complete_answer_ends_the_loop (w : world) (hotel : Hotel.t)
    (maxAttempts : number) (fuel : nat) (attempt : Z) (acc : object)
    (h : list event) (newData : object) (others : list object) :
  lt attempt maxAttempts = true →
  getEmptyFields (Some acc) allFieldNames ≠ [] →
  w _ h (askFor hotel acc) = Returned (newData :: others) →
  getEmptyFields (Some (mergeDataSafely acc newData)) allFieldNames = [] →
  attemptLoop (S fuel) hotel maxAttempts attempt acc w h
  = (Returned (mergeDataSafely acc newData, attempt + 1), [Called (askFor hotel acc)]).
Proof.
  intros Hlt Hne Hw Hfull. simpl. rewrite Hlt. unfold bind.
  rewrite attemptBody_run, Hw.
  destruct (getEmptyFields (Some acc) allFieldNames); [done|].
  cbv zeta. by rewrite Hfull.
Qed.

Lemma complete_answer_in_filledWorld :
  attemptLoop 2 inn (Num 2) 0 ∅ filledWorld []
  = (Returned (mergeDataSafely ∅ (answerAll MD_ALL_FIELDS), 0 + 1),
     [Called (askFor inn ∅)]).
Proof.
  apply (complete_answer_ends_the_loop filledWorld inn (Num 2) 1 0 ∅ []
           (answerAll MD_ALL_FIELDS) []).
  - reflexivity.
  - discriminate.
  - reflexivity.
  - vm_compute. reflexivity.
Defined.

(** ** A failure on the final attempt *)

Lemma retryThenSave_next (w : world) (hotel : Hotel.t) (maxAttempts : number)
    (existingData : option object) (attempt : Z) (acc acc' : object)
    (h ev : list event) :
  lt attempt maxAttempts = true →
  attemptBody hotel maxAttempts (attempt + 1) acc w h
  = (Returned (Continue, acc'), ev) →
  retryThenSave (passes maxAttempts attempt) hotel maxAttempts existingData
    attempt acc w h
  = ((retryThenSave (passes maxAttempts (attempt + 1)) hotel maxAttempts
        existingData (attempt + 1) acc' w (h ++ ev)).1,
     ev ++ (retryThenSave (passes maxAttempts (attempt + 1)) hotel maxAttempts
              existingData (attempt + 1) acc' w (h ++ ev)).2).
Proof.
  intros Hlt Hbody. destruct maxAttempts as [|n]; [done|].
  pose proof Hlt as Hlt'. simpl in Hlt'. apply Z.ltb_lt in Hlt'.
  simpl passes.
  replace (Z.to_nat (n - attempt)) with (S (Z.to_nat (n - (attempt + 1)))) by lia.
  unfold retryThenSave. cbn [attemptLoop]. rewrite Hlt.
  unfold bind. rewrite Hbody.
  destruct (attemptLoop _ hotel (Num n) (attempt + 1) acc' w (h ++ ev))
    as [[[acc2 attempt2]|e] ev2]; [|done].
  rewrite <- app_assoc.
  destruct (afterLoop hotel existingData acc2 w (h ++ ev ++ ev2)) as [o ev3].
  cbn [fst snd]. by rewrite <- app_assoc.
Qed.

(** A cycle is what came before a state its loop reaches, followed by the
    loop run from that state and [afterLoop]. *)
Lemma loopReaches_run (w : world) (hotel : Hotel.t) (maxAttempts : number)
    (existingData : option object) (attempt : Z) (acc : object) (h : list event) :
  loopReaches w hotel maxAttempts attempt acc h →
  ∃ earlier,
    h = Called (PoolExecute (Db.SelectAll [VStr (Hotel.hotel_uuid hotel)])) :: earlier
    ∧ retryThenSave (passes maxAttempts 0) hotel maxAttempts existingData 0 ∅ w
        [Called (PoolExecute (Db.SelectAll [VStr (Hotel.hotel_uuid hotel)]))]
      = ((retryThenSave (passes maxAttempts attempt) hotel maxAttempts
            existingData attempt acc w h).1,
         earlier ++ (retryThenSave (passes maxAttempts attempt) hotel maxAttempts
                       existingData attempt acc w h).2).
Proof.
  induction 1 as [|attempt acc acc' h ev Hreach IH Hlt Hbody].
  - exists []. split; [done|]. by destruct (retryThenSave _ _ _ _ _ _ _ _).
  - destruct IH as (earlier & -> & IH). exists (earlier ++ ev). split; [done|].
    rewrite IH, (retryThenSave_next _ _ _ _ _ _ _ _ _ Hlt Hbody).
    cbn [fst snd]. by rewrite <- app_assoc.
Qed.

(** C6. Let the loop of a cycle reach its final attempt (the counter will
    be [maxAttempts]) with accumulator [acc], some field still empty, and
    let the fetch of that attempt fail.  Then the cycle does not throw for
    it and no attempt follows: after the failed request it saves [acc],
    the accumulator of the earlier attempts, exactly as after a successful
    loop: with no persisted record, by the INSERT of [acc] with the uuid;
    with one, by the lookup and, for a positive id, the UPDATE of [acc]'s
    schema fields; then comes the FAQ request.  Only an error of that
    write makes the cycle throw. *)
Theorem C6_final_failure_saves_the_accumulator (w : world)
    (SCRAPE_MAX_TRY : option string) (hotel : Hotel.t) (n : Z) (acc : object)
    (h : list event) (e : Error) :
  maxAttemptsOf SCRAPE_MAX_TRY = Num n →
  loopReaches w hotel (Num n) (n - 1) acc h →
  getEmptyFields (Some acc) allFieldNames ≠ [] →
  (AIService.fetchHotelData (Hotel.name hotel)
     (Some (getEmptyFields (Some acc) allFieldNames)) w h).1 = Threw e →
  attemptLoop 1 hotel (Num n) (n - 1) acc w h
  = (Returned (acc, n), [Called (askFor hotel acc)])
  ∧ run w (processHotelWithRetry SCRAPE_MAX_TRY hotel)
    = let uuid := VStr (Hotel.hotel_uuid hotel) in
      let faq := Called (FaqCompletion (Hotel.name hotel)) in
      let h' := h ++ [Called (askFor hotel acc)] in
      match existingOf w hotel with
      | None =>
          let write := PoolExecute (insertStatement (set acc "hotel_uuid" uuid)) in
          match w _ h' write with
          | Returned _ => (Returned tt, h' ++ [Called write; faq])
          | Threw error => (Threw error, h' ++ [Called write])
          end
      | Some _ =>
          let lookup := PoolExecute (Db.SelectId [uuid]) in
          let existingId :=
            match w _ h' lookup with
            | Returned (result :: _) => Db.id result
            | Returned [] | Threw _ => 0
            end in
          if existingId >? 0 then
            match keys (filterValidFields (delete "hotel_uuid" acc)) with
            | [] => (Returned tt, h' ++ [Called lookup; faq])
            | _ :: _ =>
                let write := PoolExecute (updateStatement existingId acc) in
                match w _ (h' ++ [Called lookup]) write with
                | Returned _ => (Returned tt, h' ++ [Called lookup; Called write; faq])
                | Threw error => (Threw error, h' ++ [Called lookup; Called write])
                end
            end
          else (Returned tt, h' ++ [Called lookup; faq])
      end.
Proof.
  intros Hmax Hreach Hne Hfail.
  destruct (final_attempt_failure_keeps_accumulator w hotel (existingOf w hotel)
              n acc 0 h e Hne Hfail) as [Hloop Hrest].
  split; [exact Hloop|].
  destruct (loopReaches_run w hotel (Num n) (existingOf w hotel) (n - 1) acc h Hreach)
    as (earlier & -> & Hrun).
  set (read := Called (PoolExecute (Db.SelectAll [VStr (Hotel.hotel_uuid hotel)]))) in *.
  assert (run w (processHotelWithRetry SCRAPE_MAX_TRY hotel)
          = ((afterLoop hotel (existingOf w hotel) acc w
                ((read :: earlier) ++ [Called (askFor hotel acc)])).1,
             (read :: earlier) ++ Called (askFor hotel acc)
             :: (afterLoop hotel (existingOf w hotel) acc w
                   ((read :: earlier) ++ [Called (askFor hotel acc)])).2)) as ->.
  { unfold run, processHotelWithRetry. unfold bind at 1.
    rewrite getMarketDataByUuid_run, Hmax. fold read. simpl app.
    fold (existingOf w hotel). rewrite Hrun.
    replace (passes (Num n) (n - 1)) with 1%nat by (simpl; lia).
    rewrite Hrest. cbn [fst snd]. reflexivity. }
  cbv zeta. set (h' := (read :: earlier) ++ [Called (askFor hotel acc)]).
  rewrite afterLoop_run.
  destruct (existingOf w hotel) as [row|].
  - rewrite saveToDatabase_update, getIdByUuid_run. cbn [fst].
    match goal with |- context [?id >? 0] => destruct (id >? 0) end.
    + rewrite updateMarketData_run.
      destruct (keys (filterValidFields (delete "hotel_uuid" acc))).
      * cbn. f_equal. subst h'. by rewrite <- !app_assoc.
      * match goal with
        | |- context [w _ ?h0 (PoolExecute ?q)] =>
            destruct (w _ h0 (PoolExecute q)) as [result|error]
        end; cbn; f_equal; subst h'; by rewrite <- !app_assoc.
    + cbn. f_equal. subst h'. by rewrite <- !app_assoc.
  - rewrite saveToDatabase_insert, insertMarketData_run.
    pose proof (insert_columns_nonempty acc (VStr (Hotel.hotel_uuid hotel))) as Hin.
    destruct (keys (filterValidFields _)); [by apply elem_of_nil in Hin|].
    match goal with
    | |- context [w _ ?h0 (PoolExecute ?q)] =>
        destruct (w _ h0 (PoolExecute q)) as [result|error]
    end; cbn; f_equal; subst h'; by rewrite <- !app_assoc.
Qed.

End Runtime.

(** * The examples, run with the default number of attempts *)

Lemma C1_first_attempt_at_filled_record :
  maxAttemptsOf parseIntOfTheExamples None = Num 2
  ∧ filledWorld _ [] (PoolExecute (Db.SelectAll [VStr "u1"])) = Returned [filledRecord]
  ∧ getEmptyFields (Some ∅) allFieldNames = allFieldNames
  ∧ ∃ rest,
      (run filledWorld
       (processHotelWithRetry parseIntOfTheExamples None inn)).2
      = Called (PoolExecute (Db.SelectAll [VStr "u1"]))
        :: Called (DataCompletion "Inn" MD_ALL_FIELDS true)
        :: rest
      ∧ Called (PoolExecute (Db.SelectId [VStr "u1"])) ∈ rest.
Proof.
  split; [reflexivity|]. split; [reflexivity|].
  apply (C1_first_attempt_asks_for_every_field parseIntOfTheExamples
           filledWorld None inn 2 filledRecord []); reflexivity.
Defined.

(** The claim C1 as the specification words it fails: the persisted record
    of [filledWorld] has every field of the schema filled, and still the
    cycle sends one request, for all the fields. *)
Lemma C1_filled_record_is_fetched_again :
  existingOf filledWorld inn = Some filledRecord
  ∧ getEmptyFields (Some filledRecord) allFieldNames = []
  ∧ fetchCalls (run filledWorld
       (processHotelWithRetry parseIntOfTheExamples None inn)).2 = 1%nat
  ∧ fetchCalls (run filledWorld
       (processHotelWithRetry parseIntOfTheExamples None inn)).2 ≠ 0%nat
  ∧ (run filledWorld
       (processHotelWithRetry parseIntOfTheExamples None inn)).2 !! 1%nat
    = Some (Called (DataCompletion "Inn" MD_ALL_FIELDS true)).
Proof.
  assert (fetchCalls (run filledWorld
       (processHotelWithRetry parseIntOfTheExamples None inn)).2 = 1%nat)
    as Hcalls by (vm_compute; reflexivity).
  split_and!.
  - reflexivity.
  - vm_compute. reflexivity.
  - exact Hcalls.
  - rewrite Hcalls. discriminate.
  - vm_compute. reflexivity.
Qed.

Lemma C9_lookup_down_drops_the_data :
  (run lookupDownWorld
       (processHotelWithRetry parseIntOfTheExamples None inn)).1 = Returned tt
  ∧ forallb (λ e, negb (isWrite e))
      (run lookupDownWorld
       (processHotelWithRetry parseIntOfTheExamples None inn)).2 = true
  ∧ Called (PoolExecute (Db.SelectId [VStr "u1"]))
    ∈ (run lookupDownWorld
       (processHotelWithRetry parseIntOfTheExamples None inn)).2.
Proof.
  apply (C9_zero_lookup_drops_the_data parseIntOfTheExamples lookupDownWorld
           None inn filledRecord []).
  - reflexivity.
  - intros ev _. reflexivity.
Defined.

(** The same run from the start: the name gathered on attempt 1 is
    inserted, with the uuid, although attempt 2 failed. *)
Example flaky_cycle_inserts_what_it_has :
  (run flakyWorld
       (processHotelWithRetry parseIntOfTheExamples None inn)).1 = Returned tt
  ∧ (run flakyWorld
       (processHotelWithRetry parseIntOfTheExamples None inn)).2 !! 4%nat
    = Some (Called (PoolExecute
              (Db.InsertInto ["name"; "hotel_uuid"] [VStr "Inn"; VStr "u1"]))).
Proof. split; vm_compute; reflexivity. Qed.

Lemma new_hotel_in_flakyWorld :
  existingOf flakyWorld inn = None
  ∧ ∃ attempts acc columns params tail (i : nat),
      (run flakyWorld
       (processHotelWithRetry parseIntOfTheExamples None inn)).2
      = Called (PoolExecute (Db.SelectAll [VStr "u1"]))
        :: attempts ++ Called (PoolExecute (Db.InsertInto columns params)) :: tail
      ∧ forallb loopEvent attempts = true
      ∧ forallb (λ e, negb (isWrite e)) tail = true
      ∧ Db.InsertInto columns params
        = insertStatement (set acc "hotel_uuid" (VStr "u1"))
      ∧ columns !! i = Some "hotel_uuid"
      ∧ params !! i = Some (VStr "u1").
Proof.
  split; [reflexivity|].
  apply (new_hotel_is_inserted_with_its_uuid parseIntOfTheExamples flakyWorld
           None inn).
  reflexivity.
Defined.

Lemma C6_flaky_cycle_saves_the_name :
  attemptLoop 1 inn (Num 2) (2 - 1) nameOnly flakyWorld afterFirstAttempt
  = (Returned (nameOnly, 2), [Called (askFor inn nameOnly)])
  ∧ run flakyWorld (processHotelWithRetry parseIntOfTheExamples None inn)
    = (Returned tt,
       (afterFirstAttempt ++ [Called (askFor inn nameOnly)])
       ++ [Called (PoolExecute
                     (insertStatement (set nameOnly "hotel_uuid" (VStr "u1"))));
           Called (FaqCompletion "Inn")]).
Proof.
  apply (C6_final_failure_saves_the_accumulator parseIntOfTheExamples flakyWorld
           None inn 2 nameOnly afterFirstAttempt
           {| message := "Connection error." |}).
  - reflexivity.
  - apply (reaches_next flakyWorld inn (Num 2) 0 ∅ nameOnly
             [Called (PoolExecute (Db.SelectAll [VStr "u1"]))]
             [Called (DataCompletion "Inn" MD_ALL_FIELDS true); Waited 5000]).
    + apply reaches_start.
    + reflexivity.
    + vm_compute. reflexivity.
  - vm_compute. discriminate.
  - vm_compute. reflexivity.
Defined.
